(** * flip_image.py: a shallow embedding and its verified properties

    The program flips raster images with Pillow or OpenCV and writes the
    result to disk.  The embedding follows [src/flip_image.py] function by
    function.  Python [str] values are byte strings (UTF-8), [pathlib]
    paths are a root and a list of components, the file system is a finite
    map from paths to nodes, and every function that prints, touches the
    file system or raises runs in a small state-and-exception monad. *)

From Stdlib Require Import Ascii String List ZArith Lia.
From stdpp Require Import base decidable option list strings countable gmap
  fin_maps sorting.

Local Open Scope string_scope.
Local Open Scope list_scope.

(** ** Python strings *)

Module PyStr.

(** [str.lower] and [str.upper] restricted to what the program compares
    against: the ASCII letters.  Bytes outside [A-Z] / [a-z] are kept;
    Python maps some non-ASCII code points to other non-ASCII ones, which
    never makes a string equal to one of the ASCII constants used below. *)
Definition lower_char (c : ascii) : ascii :=
  let n := nat_of_ascii c in
  if (65 <=? n)%nat && (n <=? 90)%nat then ascii_of_nat (n + 32) else c.

Definition upper_char (c : ascii) : ascii :=
  let n := nat_of_ascii c in
  if (97 <=? n)%nat && (n <=? 122)%nat then ascii_of_nat (n - 32) else c.

Fixpoint map_chars (f : ascii -> ascii) (s : string) : string :=
  match s with
  | EmptyString => EmptyString
  | String c s' => String (f c) (map_chars f s')
  end.

Definition lower : string -> string := map_chars lower_char.
Definition upper : string -> string := map_chars upper_char.

(** [c in s] for a one-character [c]. *)
Fixpoint contains (c : ascii) (s : string) : bool :=
  match s with
  | EmptyString => false
  | String d s' => if Ascii.eqb c d then true else contains c s'
  end.

(** [s[:n]] and [s[n:]] for [0 <= n]. *)
Fixpoint take (n : nat) (s : string) : string :=
  match n, s with
  | S n', String c s' => String c (take n' s')
  | _, _ => EmptyString
  end.

Fixpoint drop (n : nat) (s : string) : string :=
  match n, s with
  | S n', String _ s' => drop n' s'
  | _, _ => s
  end.

(** [s.rfind(c)]: the highest index holding [c], [None] for Python's -1. *)
Fixpoint rfind (c : ascii) (s : string) : option nat :=
  match s with
  | EmptyString => None
  | String d s' =>
      match rfind c s' with
      | Some i => Some (S i)
      | None => if Ascii.eqb c d then Some O else None
      end
  end.

(** [s.lstrip(c)] for a one-character [c]. *)
Fixpoint lstrip (c : ascii) (s : string) : string :=
  match s with
  | String d s' => if Ascii.eqb c d then lstrip c s' else s
  | EmptyString => EmptyString
  end.

(** [s.split(c)]: the pieces between the occurrences of [c]. *)
Fixpoint split_go (c : ascii) (cur : string) (s : string) : list string :=
  match s with
  | EmptyString => [String.rev cur]
  | String d s' =>
      if Ascii.eqb c d then String.rev cur :: split_go c EmptyString s'
      else split_go c (String d cur) s'
  end.

Definition split (c : ascii) (s : string) : list string :=
  split_go c EmptyString s.

(** [sep.join(l)]. *)
Fixpoint join (sep : string) (l : list string) : string :=
  match l with
  | [] => ""
  | [x] => x
  | x :: l' => x +:+ sep +:+ join sep l'
  end.

(** Truthiness of a string: [if s:]. *)
Definition truthy (s : string) : bool :=
  match s with EmptyString => false | _ => true end.

End PyStr.

(** ** Exceptions *)

(** The exception classes the program raises itself or meets in [pathlib],
    [os], [print] and the image libraries.  All of them derive from
    [Exception]; [LibraryError] stands for any other [Exception] subclass
    raised inside Pillow, OpenCV or numpy.  [str(e)] is the message. *)
Inductive exn_class :=
| ValueError | RuntimeError | NameError | AttributeError | TypeError
| FileExistsError | FileNotFoundError | NotADirectoryError | IsADirectoryError
| LibraryError | UnicodeEncodeError.

Record exn := Raise { exn_cls : exn_class; exn_str : string }.

(** Results of fallible calls: [inl e] is a raised exception. *)
Definition result (A : Type) : Type := (exn + A)%type.

(** ** pathlib (POSIX flavour) *)

Module Pathlib.

Record path := mkPath { root : string; parts : list string }.

#[global] Instance path_eq_dec : EqDecision path.
Proof. solve_decision. Defined.

#[global] Instance path_countable : Countable path :=
  inj_countable' (fun p => (root p, parts p)) (fun rp => mkPath rp.1 rp.2)
    (fun p => match p with mkPath _ _ => eq_refl end).

Definition sep : ascii := "/"%char.

(** [posixpath.splitroot]: exactly two leading slashes are kept apart. *)
Definition parse_root (s : string) : string :=
  match s with
  | String "/" (String "/" (String "/" _)) => "/"
  | String "/" (String "/" _) => "//"
  | String "/" _ => "/"
  | _ => ""
  end.

Definition keep_part (c : string) : bool :=
  PyStr.truthy c && negb (String.eqb c ".").

(** [Path(s)]. *)
Definition Path (s : string) : path :=
  mkPath (parse_root s) (filter (fun c => Is_true (keep_part c)) (PyStr.split sep s)).

(** [str(p)]. *)
Definition str (p : path) : string :=
  let s := root p +:+ PyStr.join "/" (parts p) in
  if PyStr.truthy s then s else ".".

(** [p.name]. *)
Definition name (p : path) : string := List.last (parts p) "".

(** [p.parent]. *)
Definition parent (p : path) : path :=
  mkPath (root p) (removelast (parts p)).

(** [name[i:]] where [i = name.rfind('.')], when [0 < i < len(name) - 1]. *)
Definition split_suffix (nm : string) : string * string :=
  match PyStr.rfind "." nm with
  | Some i =>
      if (0 <? i)%nat && (i <? String.length nm - 1)%nat
      then (PyStr.take i nm, PyStr.drop i nm)
      else (nm, "")
  | None => (nm, "")
  end.

(** [p.suffix] and [p.stem]. *)
Definition suffix (p : path) : string := (split_suffix (name p)).2.
Definition stem (p : path) : string := (split_suffix (name p)).1.

Definition valid_name (nm : string) : bool :=
  PyStr.truthy nm && negb (PyStr.contains sep nm) && negb (String.eqb nm ".").

(** [p.with_name(nm)], with the name check of Python 3.12 (which also
    refuses [.]). *)
Definition with_name (p : path) (nm : string) : result path :=
  if negb (PyStr.truthy (name p)) then
    inl (Raise ValueError ("PosixPath('" +:+ str p +:+ "') has an empty name"))
  else if negb (valid_name nm) then
    inl (Raise ValueError ("Invalid name '" +:+ nm +:+ "'"))
  else inr (mkPath (root p) (removelast (parts p) ++ [nm])).

(** [posixpath.join(a, b)]. *)
Definition ends_with_sep (a : string) : bool :=
  match String.rev a with String "/" _ => true | _ => false end.

Definition posix_join (a b : string) : string :=
  match b with
  | String "/" _ => b
  | _ => if negb (PyStr.truthy a) || ends_with_sep a then a +:+ b
         else a +:+ "/" +:+ b
  end.

(** [p / s] for a string [s]. *)
Definition joinpath (p : path) (s : string) : path :=
  Path (posix_join (str p) s).

(** [p <= q].  pathlib compares the component lists, root first: the first
    pair of different components decides, each compared as a string (by code
    point, which is the byte order of UTF-8); a proper prefix comes first. *)
Fixpoint parts_leb (l1 l2 : list string) : bool :=
  match l1, l2 with
  | [], _ => true
  | _ :: _, [] => false
  | x :: l1', y :: l2' =>
      if String.eqb x y then parts_leb l1' l2' else String.leb x y
  end.

Definition all_parts (p : path) : list string :=
  if PyStr.truthy (root p) then root p :: parts p else parts p.

Definition leb (p q : path) : bool := parts_leb (all_parts p) (all_parts q).

Definition le (p q : path) : Prop := Is_true (leb p q).

#[global] Instance le_dec : RelDecision le.
Proof. intros p q. unfold le. apply _. Defined.

End Pathlib.

Import Pathlib.

(** ** The file system and the console *)

Abbreviation bytes := (list Byte.byte).

Inductive node :=
| File (content : bytes)
| Dir.

Inductive stream := Stdout | Stderr.

(** The state the program acts on: the directory tree, as a finite map from
    paths to nodes, and the lines printed so far, oldest first. *)
Record world := mkWorld {
  fs : gmap path node;
  console : list (stream * string)
}.

Module FS.

(** The current directory and the root (paths without components) always
    exist.  Symbolic links and [..] are not interpreted: two different
    component lists are two different files, so what is proved about the
    entries a run leaves alone is about spellings the run does not write
    to. *)
Definition node_at (m : gmap path node) (p : path) : option node :=
  match parts p with
  | [] => Some Dir
  | _ => m !! p
  end.

(** [p.exists()], [p.is_file()], [p.is_dir()]. *)
Definition exists_ (m : gmap path node) (p : path) : bool :=
  match node_at m p with Some _ => true | None => false end.

Definition is_file (m : gmap path node) (p : path) : bool :=
  match node_at m p with Some (File _) => true | _ => false end.

Definition is_dir (m : gmap path node) (p : path) : bool :=
  match node_at m p with Some Dir => true | _ => false end.

Definition os_error (c : exn_class) (what : string) (p : path) : exn :=
  Raise c (what +:+ ": '" +:+ str p +:+ "'").

(** Some directory on the way to [p] is a regular file. *)
Definition file_above (m : gmap path node) (p : path) : bool :=
  existsb (fun k => is_file m (mkPath (root p) (firstn k (parts p))))
    (seq 1 (length (parts p) - 1)).

(** [os.mkdir(p)]. *)
Definition os_mkdir (m : gmap path node) (p : path) : result (gmap path node) :=
  match node_at m p with
  | Some _ => inl (os_error FileExistsError "[Errno 17] File exists" p)
  | None =>
      match node_at m (parent p) with
      | None =>
          if file_above m p
          then inl (os_error NotADirectoryError "[Errno 20] Not a directory" p)
          else inl (os_error FileNotFoundError "[Errno 2] No such file or directory" p)
      | Some (File _) => inl (os_error NotADirectoryError "[Errno 20] Not a directory" p)
      | Some Dir => inr (<[p := Dir]> m)
      end
  end.

(** [p.mkdir(parents=False, exist_ok=True)]. *)
Definition mkdir_exist_ok (m : gmap path node) (p : path) : result (gmap path node) :=
  match os_mkdir m p with
  | inr m' => inr m'
  | inl e =>
      match exn_cls e with
      | FileNotFoundError => inl e
      | _ => if is_dir m p then inr m else inl e
      end
  end.

(** [p.mkdir(parents=True, exist_ok=True)] for [p] with root [r] and the
    components [rev rp]: a missing parent is created first, by the same
    call on the parent. *)
Fixpoint mkdir_parents (r : string) (rp : list string) (m : gmap path node)
  : result (gmap path node) :=
  let p := mkPath r (rev rp) in
  match os_mkdir m p with
  | inr m' => inr m'
  | inl e =>
      match exn_cls e with
      | FileNotFoundError =>
          match rp with
          | [] => inl e
          | _ :: rp' =>
              match mkdir_parents r rp' m with
              | inl e' => inl e'
              | inr m1 => mkdir_exist_ok m1 p
              end
          end
      | _ => if is_dir m p then inr m else inl e
      end
  end.

Definition mkdir (m : gmap path node) (p : path) : result (gmap path node) :=
  mkdir_parents (root p) (rev (parts p)) m.

(** Reading a whole file: [open(p, "rb").read()]. *)
Definition read_bytes (m : gmap path node) (p : path) : result bytes :=
  match node_at m p with
  | Some (File b) => inr b
  | Some Dir => inl (os_error IsADirectoryError "[Errno 21] Is a directory" p)
  | None => inl (os_error FileNotFoundError "[Errno 2] No such file or directory" p)
  end.

(** Opening a file for writing: it is created or truncated. *)
Definition open_w (m : gmap path node) (p : path) : result (gmap path node) :=
  match node_at m p with
  | Some Dir => inl (os_error IsADirectoryError "[Errno 21] Is a directory" p)
  | Some (File _) => inr (<[p := File []]> m)
  | None =>
      match node_at m (parent p) with
      | Some Dir => inr (<[p := File []]> m)
      | Some (File _) => inl (os_error NotADirectoryError "[Errno 20] Not a directory" p)
      | None => inl (os_error FileNotFoundError "[Errno 2] No such file or directory" p)
      end
  end.

(** The entries directly inside [d]: [d.iterdir()], in the order the map
    lists them (the operating system promises no order either). *)
Definition is_child (d p : path) : bool :=
  bool_decide (root p = root d) &&
  match rev (parts p) with
  | [] => false
  | _ :: rp => bool_decide (rev rp = parts d)
  end.

Definition iterdir (m : gmap path node) (d : path) : list path :=
  filter (fun p => Is_true (is_child d p)) (map_to_list m).*1.

End FS.

(** ** The monad of the program: state and exceptions *)

Definition M (A : Type) : Type := world -> result A * world.

Definition ret {A} (a : A) : M A := fun w => (inr a, w).

Definition bind {A B} (c : M A) (k : A -> M B) : M B :=
  fun w => match c w with
           | (inr a, w') => k a w'
           | (inl e, w') => (inl e, w')
           end.

Definition raise {A} (e : exn) : M A := fun w => (inl e, w).

(** [try: c  except Exception as e: h e]. *)
Definition try_except {A} (c : M A) (h : exn -> M A) : M A :=
  fun w => match c w with
           | (inr a, w') => (inr a, w')
           | (inl e, w') => h e w'
           end.

Notation "x <- c1 ;; c2" := (bind c1 (fun x => c2))
  (at level 100, c1 at next level, right associativity).
Notation "c1 ;;; c2" := (bind c1 (fun _ => c2))
  (at level 100, right associativity).

(** [print(line)] and [print(line, file=sys.stderr)] on streams that accept
    every line: the error stream (its handler is [backslashreplace]) and
    standard output in UTF-8 mode or under a C or POSIX locale (handler
    [surrogateescape]).  Standard output that can refuse a line is modelled
    in the module [Strict] below. *)
Definition print_to (s : stream) (line : string) : M unit :=
  fun w => (inr tt, mkWorld (fs w) (console w ++ [(s, line)])).

Definition print : string -> M unit := print_to Stdout.

(** A pure query of the file system. *)
Definition ask {A} (f : gmap path node -> A) : M A :=
  fun w => (inr (f (fs w)), w).

(** A fallible query of the file system. *)
Definition attempt {A} (f : gmap path node -> result A) : M A :=
  fun w => (f (fs w), w).

(** A fallible update of the file system. *)
Definition update (f : gmap path node -> result (gmap path node)) : M unit :=
  fun w => match f (fs w) with
           | inr m' => (inr tt, mkWorld m' (console w))
           | inl e => (inl e, w)
           end.

(** A fallible pure computation. *)
Definition lift {A} (r : result A) : M A := fun w => (r, w).

(** ** Pixel data and the two image libraries *)

(** A pixel is the list of its band values; an image is a list of rows, top
    row first, each row from left to right. *)
Definition pixel : Type := list N.
Abbreviation raster := (list (list pixel)).

(** The pixel in column [x] of row [y]. *)
Definition pixel_at (r : raster) (x y : nat) : option pixel :=
  match r !! y with
  | Some row => row !! x
  | None => None
  end.

(** A raster of [w] columns and [h] rows. *)
Definition rectangular (w h : nat) (r : raster) : Prop :=
  length r = h /\ Forall (fun row => length row = w) r.

(** Python values stored in [Image.info] and passed as keyword arguments. *)
Inductive pyval :=
| PStr (s : string)
| PInt (z : Z)
| PBytes (b : bytes).

Module PIL.

(** An opened image: pixel data, [format] and the [info] dictionary. *)
Record Image := mkImage {
  im : raster;
  format : option string;
  info : gmap string pyval
}.

Inductive Transpose := FLIP_LEFT_RIGHT | FLIP_TOP_BOTTOM | ROTATE_180.

(** The three loops of Pillow's geometry code: every row reversed, the
    rows in reverse order, and both. *)
Definition transpose_raster (method : Transpose) (r : raster) : raster :=
  match method with
  | FLIP_LEFT_RIGHT => reverse <$> r
  | FLIP_TOP_BOTTOM => reverse r
  | ROTATE_180 => reverse (reverse <$> r)
  end.

(** [img.transpose(method)]: a new image with a copy of [info] and no
    [format]. *)
Definition transpose (img : Image) (method : Transpose) : Image :=
  mkImage (transpose_raster method (im img)) None (info img).

End PIL.

Module CV2.

(** [cv2.flip(a, code)]: [0] flips around the x axis, a positive code
    around the y axis, a negative one around both. *)
Definition flip (a : raster) (code : Z) : raster :=
  if (code =? 0)%Z then reverse a
  else if (0 <? code)%Z then reverse <$> a
  else reverse (reverse <$> a).

End CV2.

Import PIL.

(** ** flip_image.py *)

(** [SUPPORTED_EXTS]. *)
Definition SUPPORTED_EXTS : list string :=
  [".jpg"; ".jpeg"; ".png"; ".bmp"; ".gif"; ".tiff"; ".webp"].

(** [x in xs] for strings. *)
Definition str_in (x : string) (xs : list string) : bool :=
  existsb (String.eqb x) xs.

Definition unknown_mode : exn :=
  Raise ValueError "Unknown mode. Choose from horizontal|vertical|both".

(** [flip_pillow(img, mode)]. *)
Definition flip_pillow (img : Image) (mode : string) : result Image :=
  let mode := PyStr.lower mode in
  if String.eqb mode "horizontal" then inr (transpose img FLIP_LEFT_RIGHT)
  else if String.eqb mode "vertical" then inr (transpose img FLIP_TOP_BOTTOM)
  else if String.eqb mode "both" then inr (transpose img ROTATE_180)
  else inl unknown_mode.

(** The mode strings the specification recognises. *)
Definition recognised_modes : list string := ["horizontal"; "vertical"; "both"].

(** [d.setdefault(k, v)]. *)
Definition setdefault (k : string) (v : pyval) (d : gmap string pyval)
  : gmap string pyval :=
  match d !! k with
  | Some _ => d
  | None => <[k := v]> d
  end.

(** [original.info], which raises when [original] is [None]. *)
Definition getattr_info (original : option Image) : result (gmap string pyval) :=
  match original with
  | Some o => inr (info o)
  | None => inl (Raise AttributeError "'NoneType' object has no attribute 'info'")
  end.

(** The keyword arguments [save_pillow_with_exif] builds for [img.save]
    (lines 56 to 73). *)
Definition save_kwargs (original : option Image) : gmap string pyval :=
  let kw : gmap string pyval := ∅ in
  let fmt : option string :=
    match original with
    | Some o =>
        match format o with
        | Some f => if PyStr.truthy f then Some f else None
        | None => None
        end
    | None => None
    end in
  let kw := match fmt with Some f => <["format" := PStr f]> kw | None => kw end in
  let kw :=
    match fmt with
    | Some f =>
        if str_in (PyStr.upper f) ["JPEG"; "JPG"]
        then setdefault "subsampling" (PInt 0) (setdefault "quality" (PInt 95) kw)
        else kw
    | None => kw
    end in
  match getattr_info original with
  | inr inf =>
      let kw := match inf !! "icc_profile" with
                | Some v => <["icc_profile" := v]> kw
                | None => kw
                end in
      match inf !! "exif" with
      | Some v => <["exif" := v]> kw
      | None => kw
      end
  | inl _ => kw
  end.

(** ** The image libraries as an interface

    Pillow, OpenCV and numpy are not part of the program.  What the program
    needs from them is a decoder and an encoder each, and whether [import
    cv2] succeeded when the module was loaded. *)
Class ImageLibs := {
  (** [_cv2_available], set by the guarded import of lines 7 to 11. *)
  _cv2_available : bool;
  (** [Image.open] on the content of a file, pixel data loaded. *)
  Image_open : bytes -> result Image;
  (** The encoder behind [img.save(filename, **kwargs)]: it fails before
      the file is opened (unknown format), or yields the bytes it writes
      and the exception, if any, that interrupts it. *)
  pil_encode : Image -> string -> gmap string pyval -> result (bytes * option exn);
  (** [cv2.imdecode(buf, cv2.IMREAD_UNCHANGED)]; [None] for unreadable data. *)
  cv2_imdecode : bytes -> result (option raster);
  (** [cv2.imencode(ext, a)]. *)
  cv2_imencode : string -> raster -> result (bool * bytes)
}.

(** Command-line arguments as [argparse] hands them over. *)
Record Args := mkArgs {
  arg_input : option string;
  arg_input_folder : option string;
  arg_output : option string;
  arg_output_folder : option string;
  arg_mode : string;
  arg_overwrite : bool;
  arg_backend : string
}.

(** Truthiness of an optional string: [None] and [""] are false. *)
Definition truthy_opt (o : option string) : bool :=
  match o with
  | Some s => PyStr.truthy s
  | None => false
  end.

(** [for x in l: body(x)]. *)
Fixpoint for_each {A} (l : list A) (body : A -> M unit) : M unit :=
  match l with
  | [] => ret tt
  | x :: l' => body x ;;; for_each l' body
  end.

Section Program.

Context `{ImageLibs}.

(** [img.save(out_path, **kw)]: the file is opened for writing, the encoder
    writes, and a file this call created is removed again when the encoder
    raises. *)
Definition Image_save (img : Image) (out_path : path) (kw : gmap string pyval)
  : M unit :=
  plan <- lift (pil_encode img (str out_path) kw) ;;
  created <- ask (fun m => negb (FS.exists_ m out_path)) ;;
  update (fun m => FS.open_w m out_path) ;;;
  update (fun m => inr (<[out_path := File plan.1]> m)) ;;;
  match plan.2 with
  | None => ret tt
  | Some e =>
      (if created then update (fun m => inr (delete out_path m)) else ret tt) ;;;
      raise e
  end.

(** [enc.tofile(str(out_path))]. *)
Definition tofile (enc : bytes) (out_path : path) : M unit :=
  update (fun m => FS.open_w m out_path) ;;;
  update (fun m => inr (<[out_path := File enc]> m)).

(** [save_pillow_with_exif(img, out_path, original)]. *)
Definition save_pillow_with_exif (img : Image) (out_path : path)
  (original : option Image) : M unit :=
  update (fun m => FS.mkdir m (parent out_path)) ;;;
  Image_save img out_path (save_kwargs original).

(** Names bound at module level.  [cv2] is bound only when its import
    succeeded; numpy is imported nowhere at this level. *)
Definition module_globals : list string :=
  ["argparse"; "Path"; "Image"; "ExifTags"; "sys"] ++
  (if _cv2_available then ["cv2"] else []) ++
  ["_cv2_available"; "SUPPORTED_EXTS"; "flip_pillow"; "flip_opencv_image_bytes";
   "save_pillow_with_exif"; "process_file"; "is_image_file";
   "batch_process_folder"; "parse_args"; "main"].

(** Reading a name that is neither local nor a builtin. *)
Definition load_global (nm : string) : M unit :=
  if str_in nm module_globals then ret tt
  else raise (Raise NameError ("name '" +:+ nm +:+ "' is not defined")).

(** [flip_opencv_image_bytes(img_path, out_path, mode)].  The function has
    no local [np]; line 32 evaluates [cv2.imdecode], then [np.fromfile]. *)
Definition flip_opencv_image_bytes (img_path out_path : path) (mode : string)
  : M unit :=
  if negb _cv2_available then
    raise (Raise RuntimeError
             "OpenCV backend requested but opencv-python is not installed.")
  else
    load_global "cv2" ;;;
    load_global "np" ;;;
    data <- attempt (fun m => FS.read_bytes m img_path) ;;
    img <- lift (cv2_imdecode data) ;;
    match img with
    | None =>
        raise (Raise RuntimeError ("Failed to read image via OpenCV: " +:+ str img_path))
    | Some a =>
        flipped <-
          (if String.eqb mode "horizontal" then ret (CV2.flip a 1)
           else if String.eqb mode "vertical" then ret (CV2.flip a 0)
           else if String.eqb mode "both" then ret (CV2.flip a (-1))
           else raise unknown_mode) ;;
        let ext := PyStr.lstrip "." (PyStr.lower (suffix out_path)) in
        r <- lift (cv2_imencode ("." +:+ ext) flipped) ;;
        if negb r.1 then raise (Raise RuntimeError "Failed to encode flipped image")
        else tofile r.2 out_path
    end.

(** The [try] block of [process_file] (lines 87 to 114).  Line 91 binds [np]
    as a local of [process_file]; numpy is importable whenever [cv2] is. *)
Definition process_body (in_path out_path : path) (mode : string)
  (backend : string) : M bool :=
  (if String.eqb backend "opencv" then
     if negb _cv2_available then
       raise (Raise RuntimeError
                "opencv backend not available; install opencv-python or use pillow backend")
     else
       data <- attempt (fun m => FS.read_bytes m in_path) ;;
       img <- lift (cv2_imdecode data) ;;
       match img with
       | None => raise (Raise RuntimeError "OpenCV failed to read image.")
       | Some a =>
           flipped <-
             (if String.eqb mode "horizontal" then ret (CV2.flip a 1)
              else if String.eqb mode "vertical" then ret (CV2.flip a 0)
              else if String.eqb mode "both" then ret (CV2.flip a (-1))
              else raise (Raise ValueError "Unknown flip mode")) ;;
           update (fun m => FS.mkdir m (parent out_path)) ;;;
           r <- lift (cv2_imencode (suffix out_path) flipped) ;;
           if negb r.1 then
             raise (Raise RuntimeError "OpenCV failed to encode output image")
           else tofile r.2 out_path
       end
   else
     data <- attempt (fun m => FS.read_bytes m in_path) ;;
     im <- lift (Image_open data) ;;
     flipped <- lift (flip_pillow im mode) ;;
     save_pillow_with_exif flipped out_path (Some im)) ;;;
  print ("[+] Saved: " +:+ str out_path) ;;;
  ret true.

(** The [except Exception as e] clause of [process_file]. *)
Definition process_handler (in_path : path) (e : exn) : M bool :=
  print ("[!] Failed to process " +:+ str in_path +:+ ": " +:+ exn_str e) ;;;
  ret false.

(** [process_file(in_path, out_path, mode, overwrite, backend)]. *)
Definition process_file (in_path out_path : path) (mode : string)
  (overwrite : bool) (backend : string) : M bool :=
  found <- ask (fun m => FS.exists_ m in_path) ;;
  if negb found then
    print ("[!] Input file not found: " +:+ str in_path) ;;;
    ret false
  else
    taken <- ask (fun m => negb overwrite && FS.exists_ m out_path) ;;
    if taken then
      print ("[!] Output file already exists (use --overwrite to replace): "
             +:+ str out_path) ;;;
      ret false
    else
      try_except (process_body in_path out_path mode backend)
                 (process_handler in_path).

(** [is_image_file(p)]. *)
Definition is_image_file (m : gmap path node) (p : path) : bool :=
  FS.is_file m p && str_in (PyStr.lower (suffix p)) SUPPORTED_EXTS.

(** [sorted([p for p in in_folder.iterdir() if is_image_file(p)])]. *)
Definition image_files (m : gmap path node) (in_folder : path) : list path :=
  merge_sort Pathlib.le
    (filter (fun p => Is_true (is_image_file m p)) (FS.iterdir m in_folder)).

(** [batch_process_folder(in_folder, out_folder, mode, overwrite, backend)]. *)
Definition batch_process_folder (in_folder out_folder : path) (mode : string)
  (overwrite : bool) (backend : string) : M unit :=
  ok <- ask (fun m => FS.exists_ m in_folder && FS.is_dir m in_folder) ;;
  if negb ok then
    print ("[!] Input folder not found or not a directory: " +:+ str in_folder)
  else
    update (fun m => FS.mkdir m out_folder) ;;;
    files <- ask (fun m => image_files m in_folder) ;;
    match files with
    | [] => print "[!] No supported image files found in input folder."
    | _ =>
        for_each files (fun p =>
          let out_p := joinpath out_folder (name p) in
          process_file p out_p mode overwrite backend ;;; ret tt)
    end.

Definition fallback_warning : string :=
  "[!] OpenCV backend selected but opencv-python not installed. Falling back to pillow.".

(** Lines 167 to 169: the output path when [--output] is absent. *)
Definition default_out_path (in_path : path) (mode : string) : result path :=
  let suffix := suffix in_path in
  let stem := stem in_path +:+ "_flipped_" +:+ mode in
  with_name in_path (stem +:+ suffix).

(** [Path(s)] for an optional argument; [Path(None)] raises. *)
Definition Path_of (o : option string) : result path :=
  match o with
  | Some s => inr (Path s)
  | None => inl (Raise TypeError
                   "expected str, bytes or os.PathLike object, not NoneType")
  end.

(** [main()], after [parse_args()].  The result is [Some c] when the program
    leaves through [sys.exit(c)] and [None] when [main] returns. *)
Definition main (args : Args) : M (option Z) :=
  let backend := PyStr.lower (arg_backend args) in
  backend <-
    (if String.eqb backend "opencv" && negb _cv2_available then
       print_to Stderr fallback_warning ;;; ret "pillow"
     else ret backend) ;;
  if truthy_opt (arg_input args) then
    in_path <- lift (Path_of (arg_input args)) ;;
    found <- ask (fun m => FS.exists_ m in_path) ;;
    if negb found then
      print_to Stderr ("[!] Input file does not exist: " +:+ str in_path) ;;;
      ret (Some 2%Z)
    else
      out_path <-
        (if truthy_opt (arg_output args) then lift (Path_of (arg_output args))
         else lift (default_out_path in_path (arg_mode args))) ;;
      success <- process_file in_path out_path (arg_mode args)
                   (arg_overwrite args) backend ;;
      if negb success then ret (Some 1%Z) else ret None
  else
    in_folder <- lift (Path_of (arg_input_folder args)) ;;
    if negb (truthy_opt (arg_output_folder args)) then
      print_to Stderr "[!] --output-folder is required when using --input-folder" ;;;
      ret (Some 2%Z)
    else
      out_folder <- lift (Path_of (arg_output_folder args)) ;;
      batch_process_folder in_folder out_folder (arg_mode args)
        (arg_overwrite args) backend ;;;
      ret None.

End Program.

(** ** Standard output that can refuse a line

    With the strict error handler, [print] raises [UnicodeEncodeError] when
    the encoder of standard output refuses the line: a file name that is not
    valid UTF-8, or a character outside the locale's encoding.  The
    definitions above take standard output as accepting every line; the ones
    of this module have its encoder as a parameter and are otherwise the
    same functions of [flip_image.py].  Lines for the error stream are always
    accepted. *)
Class Console := {
  (** Whether standard output can encode the line. *)
  stdout_encodes : string -> bool;
  (** [str(e)] of the [UnicodeEncodeError] raised for the line. *)
  encode_error_str : string -> string
}.

Definition encode_error `{Console} (line : string) : exn :=
  Raise UnicodeEncodeError (encode_error_str line).

Module Strict.

Section StrictProgram.

Context `{ImageLibs} `{Console}.

(** [print(line)]. *)
Definition print (line : string) : M unit :=
  if stdout_encodes line then print_to Stdout line
  else raise (encode_error line).

(** The [try] block of [process_file] (lines 87 to 114). *)
Definition process_body (in_path out_path : path) (mode : string)
  (backend : string) : M bool :=
  (if String.eqb backend "opencv" then
     if negb _cv2_available then
       raise (Raise RuntimeError
                "opencv backend not available; install opencv-python or use pillow backend")
     else
       data <- attempt (fun m => FS.read_bytes m in_path) ;;
       img <- lift (cv2_imdecode data) ;;
       match img with
       | None => raise (Raise RuntimeError "OpenCV failed to read image.")
       | Some a =>
           flipped <-
             (if String.eqb mode "horizontal" then ret (CV2.flip a 1)
              else if String.eqb mode "vertical" then ret (CV2.flip a 0)
              else if String.eqb mode "both" then ret (CV2.flip a (-1))
              else raise (Raise ValueError "Unknown flip mode")) ;;
           update (fun m => FS.mkdir m (parent out_path)) ;;;
           r <- lift (cv2_imencode (suffix out_path) flipped) ;;
           if negb r.1 then
             raise (Raise RuntimeError "OpenCV failed to encode output image")
           else tofile r.2 out_path
       end
   else
     data <- attempt (fun m => FS.read_bytes m in_path) ;;
     im <- lift (Image_open data) ;;
     flipped <- lift (flip_pillow im mode) ;;
     save_pillow_with_exif flipped out_path (Some im)) ;;;
  print ("[+] Saved: " +:+ str out_path) ;;;
  ret true.

(** The [except Exception as e] clause of [process_file]; its [print] is not
    guarded by any [try]. *)
Definition process_handler (in_path : path) (e : exn) : M bool :=
  print ("[!] Failed to process " +:+ str in_path +:+ ": " +:+ exn_str e) ;;;
  ret false.

(** [process_file(in_path, out_path, mode, overwrite, backend)]. *)
Definition process_file (in_path out_path : path) (mode : string)
  (overwrite : bool) (backend : string) : M bool :=
  found <- ask (fun m => FS.exists_ m in_path) ;;
  if negb found then
    print ("[!] Input file not found: " +:+ str in_path) ;;;
    ret false
  else
    taken <- ask (fun m => negb overwrite && FS.exists_ m out_path) ;;
    if taken then
      print ("[!] Output file already exists (use --overwrite to replace): "
             +:+ str out_path) ;;;
      ret false
    else
      try_except (process_body in_path out_path mode backend)
                 (process_handler in_path).

(** [batch_process_folder(in_folder, out_folder, mode, overwrite, backend)]. *)
Definition batch_process_folder (in_folder out_folder : path) (mode : string)
  (overwrite : bool) (backend : string) : M unit :=
  ok <- ask (fun m => FS.exists_ m in_folder && FS.is_dir m in_folder) ;;
  if negb ok then
    print ("[!] Input folder not found or not a directory: " +:+ str in_folder)
  else
    update (fun m => FS.mkdir m out_folder) ;;;
    files <- ask (fun m => image_files m in_folder) ;;
    match files with
    | [] => print "[!] No supported image files found in input folder."
    | _ =>
        for_each files (fun p =>
          let out_p := joinpath out_folder (name p) in
          process_file p out_p mode overwrite backend ;;; ret tt)
    end.

(** [main()], after [parse_args()]. *)
Definition main (args : Args) : M (option Z) :=
  let backend := PyStr.lower (arg_backend args) in
  backend <-
    (if String.eqb backend "opencv" && negb _cv2_available then
       print_to Stderr fallback_warning ;;; ret "pillow"
     else ret backend) ;;
  if truthy_opt (arg_input args) then
    in_path <- lift (Path_of (arg_input args)) ;;
    found <- ask (fun m => FS.exists_ m in_path) ;;
    if negb found then
      print_to Stderr ("[!] Input file does not exist: " +:+ str in_path) ;;;
      ret (Some 2%Z)
    else
      out_path <-
        (if truthy_opt (arg_output args) then lift (Path_of (arg_output args))
         else lift (default_out_path in_path (arg_mode args))) ;;
      success <- process_file in_path out_path (arg_mode args)
                   (arg_overwrite args) backend ;;
      if negb success then ret (Some 1%Z) else ret None
  else
    in_folder <- lift (Path_of (arg_input_folder args)) ;;
    if negb (truthy_opt (arg_output_folder args)) then
      print_to Stderr "[!] --output-folder is required when using --input-folder" ;;;
      ret (Some 2%Z)
    else
      out_folder <- lift (Path_of (arg_output_folder args)) ;;
      batch_process_folder in_folder out_folder (arg_mode args)
        (arg_overwrite args) backend ;;;
      ret None.

End StrictProgram.

End Strict.

(** Standard output with the ASCII codec and the strict handler. *)
Fixpoint ascii_only (s : string) : bool :=
  match s with
  | EmptyString => true
  | String c s' => (nat_of_ascii c <? 128)%nat && ascii_only s'
  end.

Definition ascii_console : Console := {|
  stdout_encodes := ascii_only;
  encode_error_str _ :=
    "'ascii' codec can't encode character: ordinal not in range(128)"
|}.

(** Standard output that accepts every line. *)
Definition permissive_console : Console := {|
  stdout_encodes _ := true;
  encode_error_str _ := ""
|}.

(** ** A small instance of the libraries

    A one-band image format for running the program on concrete inputs: a
    file holds one row of pixels, one byte each, and the empty file is not
    an image. *)
Definition toy_decode (b : bytes) : list pixel :=
  map (fun c => [Byte.to_N c]) b.

Definition toy_encode (r : raster) : bytes :=
  flat_map (fun row =>
    flat_map (fun px => match px with
                        | v :: _ => match Byte.of_N v with
                                    | Some c => [c]
                                    | None => []
                                    end
                        | [] => []
                        end) row) r.

Definition toy_libs (cv2 : bool) : ImageLibs := {|
  _cv2_available := cv2;
  Image_open b :=
    match b with
    | [] => inl (Raise LibraryError "cannot identify image file")
    | _ => inr (mkImage [toy_decode b] (Some "PNG") ∅)
    end;
  pil_encode img _ _ := inr (toy_encode (im img), None);
  cv2_imdecode b := inr (match b with [] => None | _ => Some [toy_decode b] end);
  cv2_imencode _ a := inr (true, toy_encode a)
|}.


(** A directory [in] with three images, a text file, a hidden file and a
    subdirectory, and an output directory [out] holding one file. *)
Definition demo_fs : gmap path node :=
  list_to_map
    [ (Path "in", Dir);
      (Path "in/b.PNG", File [Byte.x01; Byte.x02; Byte.x03]);
      (Path "in/a.jpg", File [Byte.x0a; Byte.x0b]);
      (Path "in/c.gif", File []);
      (Path "in/notes.txt", File [Byte.x68; Byte.x69]);
      (Path "in/.png", File [Byte.x01]);
      (Path "in/sub", Dir);
      (Path "in/sub/d.png", File [Byte.x07]);
      (Path "out", Dir);
      (Path "out/a.jpg", File [Byte.xff]);
      (Path "photo.jpg", File [Byte.x01; Byte.x02]) ].

Definition demo_world : world := mkWorld demo_fs [].

(** ** Vocabulary of the statements *)

(** A computation that only appends events satisfying [P] to the console. *)
Definition emits {A} (P : stream * string -> Prop) (c : M A) : Prop :=
  forall w, exists evs, console (c w).2 = console w ++ evs /\ Forall P evs.

(** The four lines [process_file] can print about one file. *)
Definition reports (in_path out_path : path) (line : string) : Prop :=
  line = "[!] Input file not found: " +:+ str in_path
  \/ line = "[!] Output file already exists (use --overwrite to replace): "
            +:+ str out_path
  \/ line = "[+] Saved: " +:+ str out_path
  \/ exists e, line = "[!] Failed to process " +:+ str in_path +:+ ": " +:+ exn_str e.




(** A computation that only appends to the console. *)
Definition grows {A} (c : M A) : Prop := emits (fun _ => True) c.


(** A folder with three files, the second with the byte 255 in its name,
    which no UTF-8 or ASCII encoder accepts; that file is empty. *)
Definition odd_name : string := String "a" (String "255"%char ".gif").

Definition odd_fs : gmap path node :=
  list_to_map
    [ (mkPath "" ["in"], Dir);
      (mkPath "" ["in"; "a.gif"], File [Byte.x01]);
      (mkPath "" ["in"; odd_name], File []);
      (mkPath "" ["in"; "z.gif"], File [Byte.x02]) ].

(** Every entry of [m] outside [except] is still there, unchanged, in [m']. *)
Definition untouched (except : list path) (m m' : gmap path node) : Prop :=
  forall q n, q ∉ except -> m !! q = Some n -> m' !! q = Some n.

(** A computation that leaves every existing entry outside [except] as it
    is, whether it returns or raises. *)
Definition keeps {A} (except : list path) (c : M A) : Prop :=
  forall w, untouched except (fs w) (fs (c w).2).

(** An event on standard output. *)
Definition on_stdout (ev : stream * string) : Prop := ev.1 = Stdout.

(** The first step of [main]: whether the OpenCV backend is replaced, the
    world after the warning, and the backend the run goes on with. *)
Definition fallback `{ImageLibs} (args : Args) : bool :=
  String.eqb (PyStr.lower (arg_backend args)) "opencv" && negb _cv2_available.

Definition after_fallback `{ImageLibs} (args : Args) (w : world) : world :=
  if fallback args
  then mkWorld (fs w) (console w ++ [(Stderr, fallback_warning)])
  else w.

Definition effective_backend `{ImageLibs} (args : Args) : string :=
  if fallback args then "pillow" else PyStr.lower (arg_backend args).

(** A path as [Path] builds it. *)
Definition parsed (p : path) : Prop :=
  In (root p) [""; "/"; "//"]
  /\ Forall (fun c => keep_part c = true /\ PyStr.contains sep c = false) (parts p).

(** The last character of a string. *)
Fixpoint last_char (s : string) : option ascii :=
  match s with
  | EmptyString => None
  | String c EmptyString => Some c
  | String _ s' => last_char s'
  end.

(** Any event but the fallback warning on the error stream. *)
Definition not_warning (ev : stream * string) : Prop :=
  ev <> (Stderr, fallback_warning).

(** The arguments with another [--backend]. *)
Definition with_backend (args : Args) (b : string) : Args :=
  mkArgs (arg_input args) (arg_input_folder args) (arg_output args)
    (arg_output_folder args) (arg_mode args) (arg_overwrite args) b.

(** A two-by-three image with an EXIF block. *)
Definition sample_image : Image :=
  mkImage [[[1%N]; [2%N]; [3%N]]; [[4%N]; [5%N]; [6%N]]] (Some "JPEG")
    (<["exif" := PBytes [Byte.x45; Byte.x78]]> ∅).

(** * Verified properties *)

(** ** The path model on examples *)

Example Path_photo :
  Path "dir/sub/./photo.jpg" = mkPath "" ["dir"; "sub"; "photo.jpg"].
Proof. reflexivity. Qed.

Example Path_abs : str (Path "/tmp//a.b/") = "/tmp/a.b".
Proof. reflexivity. Qed.

Example suffix_examples :
  map (fun s => (stem (Path s), suffix (Path s)))
      ["photo.jpg"; "a.tar.gz"; ".jpg"; "x."; "d/README"; "."]
  = [("photo", ".jpg"); ("a.tar", ".gz"); (".jpg", ""); ("x.", "");
     ("README", ""); ("", "")].
Proof. reflexivity. Qed.

Example joinpath_example :
  joinpath (Path "out") "a.png" = mkPath "" ["out"; "a.png"].
Proof. reflexivity. Qed.

(** ** Flipping *)

Section Flip.

Implicit Types (r : raster) (img : Image).

Lemma fmap_reverse_involutive r : reverse <$> (reverse <$> r) = r.
Proof.
  induction r as [|row r IH]; [done|].
  cbn [fmap list_fmap] in *. by rewrite reverse_involutive, IH.
Qed.

Lemma transpose_raster_involutive method r :
  transpose_raster method (transpose_raster method r) = r.
Proof.
  destruct method; simpl.
  - apply fmap_reverse_involutive.
  - apply reverse_involutive.
  - by rewrite fmap_reverse, reverse_involutive, fmap_reverse_involutive.
Qed.

(** Rotating by 180 degrees is either flip after the other. *)
Lemma rotate_180_flips r :
  transpose_raster ROTATE_180 r
    = transpose_raster FLIP_TOP_BOTTOM (transpose_raster FLIP_LEFT_RIGHT r)
  /\ transpose_raster ROTATE_180 r
    = transpose_raster FLIP_LEFT_RIGHT (transpose_raster FLIP_TOP_BOTTOM r).
Proof. simpl. split; [done | by rewrite fmap_reverse]. Qed.

Lemma rectangular_row w h r y row :
  rectangular w h r -> r !! y = Some row -> length row = w.
Proof.
  intros [_ Hall] Hrow. rewrite Forall_forall in Hall.
  apply Hall. by eapply list_elem_of_lookup_2.
Qed.

(** Where each pixel of the rotated raster comes from. *)
Lemma rotate_180_pixel w h r x y :
  rectangular w h r -> x < w -> y < h ->
  pixel_at (transpose_raster ROTATE_180 r) x y = pixel_at r (w - 1 - x) (h - 1 - y).
Proof.
  intros Hrect Hx Hy. pose proof Hrect as [Hlen _].
  unfold pixel_at, transpose_raster.
  rewrite reverse_lookup by (rewrite length_fmap; lia).
  rewrite length_fmap, list_lookup_fmap, Hlen.
  replace (h - S y) with (h - 1 - y) by lia.
  destruct (r !! (h - 1 - y)) as [row|] eqn:Hrow; simpl; [|done].
  pose proof (rectangular_row _ _ _ _ _ Hrect Hrow) as Hw.
  rewrite reverse_lookup by lia. rewrite Hw. f_equal. lia.
Qed.

Lemma flip_pillow_recognised img mode :
  In mode recognised_modes ->
  exists method, forall img', flip_pillow img' mode = inr (transpose img' method).
Proof.
  intros [<-|[<-|[<-|[]]]];
    [exists FLIP_LEFT_RIGHT | exists FLIP_TOP_BOTTOM | exists ROTATE_180]; done.
Qed.

End Flip.

(** C3.  Flipping twice with the same recognised mode gives back the pixel
    arrangement of the image (and leaves its [info] alone). *)
Theorem flip_pillow_involution (img : Image) (mode : string) :
  In mode recognised_modes ->
  exists once twice,
    flip_pillow img mode = inr once
    /\ flip_pillow once mode = inr twice
    /\ im twice = im img
    /\ info twice = info img.
Proof.
  intros Hmode.
  destruct (flip_pillow_recognised img mode Hmode) as [method Hflip].
  exists (transpose img method), (transpose (transpose img method) method).
  rewrite !Hflip. repeat split. apply transpose_raster_involutive.
Qed.

Lemma flip_pillow_involution_witness :
  exists once twice,
    flip_pillow sample_image "vertical" = inr once
    /\ flip_pillow once "vertical" = inr twice
    /\ im twice = im sample_image
    /\ info twice = info sample_image.
Proof. apply flip_pillow_involution. simpl. auto. Defined.

(** C4.  Mode [both] is the horizontal flip followed by the vertical one, in
    either order, and it moves the pixel of column [x] and row [y] to column
    [w - 1 - x] and row [h - 1 - y]: a rotation by 180 degrees. *)
Theorem flip_both_is_rotation (img : Image) (w h x y : nat) :
  rectangular w h (im img) -> x < w -> y < h ->
  exists b hz vt hv vh,
    flip_pillow img "both" = inr b
    /\ flip_pillow img "horizontal" = inr hz
    /\ flip_pillow hz "vertical" = inr hv
    /\ flip_pillow img "vertical" = inr vt
    /\ flip_pillow vt "horizontal" = inr vh
    /\ b = hv /\ b = vh
    /\ pixel_at (im b) x y = pixel_at (im img) (w - 1 - x) (h - 1 - y).
Proof.
  intros Hrect Hx Hy.
  exists (transpose img ROTATE_180), (transpose img FLIP_LEFT_RIGHT),
    (transpose img FLIP_TOP_BOTTOM),
    (transpose (transpose img FLIP_LEFT_RIGHT) FLIP_TOP_BOTTOM),
    (transpose (transpose img FLIP_TOP_BOTTOM) FLIP_LEFT_RIGHT).
  destruct (rotate_180_flips (im img)) as [Hhv Hvh].
  split_and!; try reflexivity.
  - unfold transpose at 1 3. by rewrite Hvh.
  - by apply rotate_180_pixel.
Qed.

Lemma flip_both_is_rotation_witness :
  exists b hz vt hv vh,
    flip_pillow sample_image "both" = inr b
    /\ flip_pillow sample_image "horizontal" = inr hz
    /\ flip_pillow hz "vertical" = inr hv
    /\ flip_pillow sample_image "vertical" = inr vt
    /\ flip_pillow vt "horizontal" = inr vh
    /\ b = hv /\ b = vh
    /\ pixel_at (im b) 0 0 = pixel_at (im sample_image) (3 - 1 - 0) (2 - 1 - 0).
Proof.
  apply flip_both_is_rotation; [|lia|lia].
  split; [reflexivity|]. repeat constructor.
Defined.

Example rotate_180_sample :
  flip_pillow sample_image "both"
  = inr (mkImage [[[6%N]; [5%N]; [4%N]]; [[3%N]; [2%N]; [1%N]]] None
           (info sample_image)).
Proof. reflexivity. Qed.

(** ** Unknown modes *)

Lemma str_in_In x xs : str_in x xs = true <-> In x xs.
Proof.
  unfold str_in. rewrite existsb_exists. split.
  - intros (y & Hy & Heq). apply String.eqb_eq in Heq. by subst.
  - intros Hx. exists x. split; [done | apply String.eqb_refl].
Qed.

Lemma str_in_not_In x xs : str_in x xs = false <-> ~ In x xs.
Proof.
  rewrite <- str_in_In. destruct (str_in x xs); split; congruence.
Qed.

(** C7, as stated, fails: [flip_pillow] lower-cases the mode first, so a
    string that is none of the three recognised values can still select a
    flip. *)
Lemma flip_pillow_upper_case_mode :
  ~ (forall (img : Image) (mode : string),
       ~ In mode recognised_modes -> exists e, flip_pillow img mode = inl e).
Proof.
  intros Hclaim.
  destruct (Hclaim sample_image "HORIZONTAL") as [e He].
  - simpl. intros [?|[?|[?|[]]]]; discriminate.
  - vm_compute in He. discriminate He.
Qed.

(** C7, amended.  A mode whose lower-case form is none of the three
    recognised values makes [flip_pillow] raise [ValueError]; no image is
    returned. *)
Theorem flip_pillow_unknown_mode (img : Image) (mode : string) :
  ~ In (PyStr.lower mode) recognised_modes ->
  flip_pillow img mode = inl unknown_mode /\ exn_cls unknown_mode = ValueError.
Proof.
  intros Hmode. split; [|reflexivity].
  unfold flip_pillow.
  destruct (String.eqb_spec (PyStr.lower mode) "horizontal") as [Heq|_].
  { destruct Hmode. rewrite Heq. simpl. auto. }
  destruct (String.eqb_spec (PyStr.lower mode) "vertical") as [Heq|_].
  { destruct Hmode. rewrite Heq. simpl. auto. }
  destruct (String.eqb_spec (PyStr.lower mode) "both") as [Heq|_].
  { destruct Hmode. rewrite Heq. simpl. auto. }
  reflexivity.
Qed.

Lemma flip_pillow_unknown_mode_witness :
  flip_pillow sample_image "Diagonal" = inl unknown_mode
  /\ exn_cls unknown_mode = ValueError.
Proof.
  apply flip_pillow_unknown_mode.
  simpl. intros [?|[?|[?|[]]]]; discriminate.
Defined.

(** ** Keyword arguments of the save *)

(** C5.  For a JPEG (or JPG) original the save is given quality 95 and
    subsampling 0; the ICC profile and the EXIF block of the original are
    passed on unchanged when present and left out when absent; nothing
    raises, not even for a missing original. *)
Theorem save_kwargs_metadata `{ImageLibs} (original : Image) :
  let kw := save_kwargs (Some original) in
  (forall f, format original = Some f -> In (PyStr.upper f) ["JPEG"; "JPG"] ->
     kw !! "quality" = Some (PInt 95) /\ kw !! "subsampling" = Some (PInt 0))
  /\ kw !! "icc_profile" = info original !! "icc_profile"
  /\ kw !! "exif" = info original !! "exif"
  /\ save_kwargs None = ∅
  /\ (forall img out_path,
        save_pillow_with_exif img out_path (Some original)
        = (update (fun m => FS.mkdir m (parent out_path)) ;;;
           Image_save img out_path kw)).
Proof.
  intros kw. subst kw. unfold save_kwargs, getattr_info. split_and!.
  - intros f -> Hjpeg.
    assert (PyStr.truthy f = true) as ->.
    { destruct f; [|done]. simpl in Hjpeg.
      destruct Hjpeg as [?|[?|[]]]; discriminate. }
    apply str_in_In in Hjpeg. rewrite Hjpeg.
    unfold setdefault.
    destruct (info original !! "icc_profile"), (info original !! "exif");
      by simplify_map_eq.
  - unfold setdefault.
    destruct (format original) as [f|]; [destruct (PyStr.truthy f);
      [destruct (str_in (PyStr.upper f) ["JPEG"; "JPG"])|]|];
    destruct (info original !! "icc_profile"), (info original !! "exif");
      by simplify_map_eq.
  - unfold setdefault.
    destruct (format original) as [f|]; [destruct (PyStr.truthy f);
      [destruct (str_in (PyStr.upper f) ["JPEG"; "JPG"])|]|];
    destruct (info original !! "icc_profile"), (info original !! "exif");
      by simplify_map_eq.
  - reflexivity.
  - reflexivity.
Qed.

Lemma save_kwargs_metadata_witness :
  let kw := save_kwargs (Some sample_image) in
  kw !! "quality" = Some (PInt 95) /\ kw !! "subsampling" = Some (PInt 0)
  /\ kw !! "exif" = Some (PBytes [Byte.x45; Byte.x78])
  /\ kw !! "icc_profile" = None.
Proof.
  destruct (@save_kwargs_metadata (toy_libs false) sample_image)
    as (Hjpeg & Hicc & Hexif & _).
  destruct (Hjpeg "JPEG") as [Hq Hs]; [reflexivity | simpl; auto |].
  split_and!; [exact Hq | exact Hs | rewrite Hexif; reflexivity
              | rewrite Hicc; reflexivity].
Defined.

(** ** Processing one file *)

Section ProcessFile.

Context `{ImageLibs}.

Implicit Types (w : world) (e : exn).

(** The [except] clause turns every exception of the [try] block into one
    log line and the result [False]. *)
Lemma process_handler_run in_path e w :
  process_handler in_path e w
  = (inr false,
     mkWorld (fs w)
       (console w ++
          [(Stdout, "[!] Failed to process " +:+ str in_path +:+ ": " +:+ exn_str e)])).
Proof. reflexivity. Qed.


End ProcessFile.



(** ** The unused OpenCV helper *)

(** C10.  With OpenCV available, [flip_opencv_image_bytes] raises
    [NameError] for [np] before it reads the input: no name [np] is bound at
    module level.  The file system is left untouched, so no output file is
    ever written. *)
Theorem flip_opencv_image_bytes_name_error `{ImageLibs}
  (img_path out_path : path) (mode : string) (w : world) :
  _cv2_available = true ->
  str_in "np" module_globals = false
  /\ flip_opencv_image_bytes img_path out_path mode w
     = (inl (Raise NameError "name 'np' is not defined"), w).
Proof.
  intros Hcv2.
  unfold flip_opencv_image_bytes, load_global, module_globals.
  rewrite Hcv2. split; reflexivity.
Qed.

Lemma flip_opencv_image_bytes_name_error_witness :
  @flip_opencv_image_bytes (toy_libs true) (Path "photo.jpg")
    (Path "flipped.jpg") "horizontal" demo_world
  = (inl (Raise NameError "name 'np' is not defined"), demo_world).
Proof.
  apply (@flip_opencv_image_bytes_name_error (toy_libs true)). reflexivity.
Defined.

(** ** Strings and path components *)

Section Strings.

Implicit Types (c : ascii) (s t : string).

Lemma contains_app c s t :
  PyStr.contains c (s +:+ t) = PyStr.contains c s || PyStr.contains c t.
Proof.
  induction s as [|d s IH]; simpl; [done|].
  destruct (Ascii.eqb c d); [done | apply IH].
Qed.

Lemma contains_rev_app c s t :
  PyStr.contains c (String.rev_app s t) = PyStr.contains c s || PyStr.contains c t.
Proof.
  revert t. induction s as [|d s IH]; intros t; simpl; [done|].
  rewrite IH. simpl. destruct (Ascii.eqb c d), (PyStr.contains c s); simpl;
    by rewrite ?orb_true_r.
Qed.

Lemma contains_rev c s : PyStr.contains c (String.rev s) = PyStr.contains c s.
Proof. unfold String.rev. rewrite contains_rev_app. simpl. apply orb_false_r. Qed.

Lemma take_drop n s : PyStr.take n s +:+ PyStr.drop n s = s.
Proof.
  revert s. induction n as [|n IH]; intros [|d s]; simpl; try done.
  change (String d (PyStr.take n s +:+ PyStr.drop n s) = String d s).
  by rewrite IH.
Qed.

Lemma app_empty_r s : s +:+ "" = s.
Proof.
  induction s as [|d s IH]; [done|].
  change (String d (s +:+ "") = String d s). by rewrite IH.
Qed.

Lemma split_go_no_sep c cur s :
  PyStr.contains c cur = false ->
  Forall (fun t => PyStr.contains c t = false) (PyStr.split_go c cur s).
Proof.
  revert cur. induction s as [|d s IH]; intros cur Hcur; simpl.
  - constructor; [by rewrite contains_rev | constructor].
  - destruct (Ascii.eqb c d) eqn:Hcd.
    + constructor; [by rewrite contains_rev | by apply IH].
    + apply IH. simpl. by rewrite Hcd.
Qed.

Lemma split_no_sep c s :
  Forall (fun t => PyStr.contains c t = false) (PyStr.split c s).
Proof. by apply split_go_no_sep. Qed.

Lemma length_app s t : String.length (s +:+ t) = String.length s + String.length t.
Proof.
  induction s as [|d s IH]; [done|].
  change (S (String.length (s +:+ t)) = S (String.length s + String.length t)).
  by rewrite IH.
Qed.

Lemma truthy_length s : 0 < String.length s -> PyStr.truthy s = true.
Proof. destruct s; simpl; [lia | done]. Qed.

Lemma not_dot_length s : 2 <= String.length s -> String.eqb s "." = false.
Proof.
  destruct s as [|c [|d s]]; simpl; try lia. intros _.
  by destruct (Ascii.eqb c ".").
Qed.

End Strings.

Section Paths.

Implicit Types (p : path) (s nm : string).

(** A component of a parsed path holds no separator. *)
Lemma Path_parts_no_sep s :
  Forall (fun t => PyStr.contains sep t = false) (parts (Path s)).
Proof.
  unfold Path. simpl. apply Forall_forall. intros t Ht.
  apply list_elem_of_filter in Ht as [_ Ht].
  pose proof (split_no_sep sep s) as Hall.
  rewrite Forall_forall in Hall. by apply Hall.
Qed.

Lemma name_no_sep s : PyStr.contains sep (name (Path s)) = false.
Proof.
  unfold name. pose proof (Path_parts_no_sep s) as Hall.
  induction Hall as [|t l Ht Hall IH]; [done|].
  destruct l; [done | exact IH].
Qed.

Lemma split_suffix_app nm : (split_suffix nm).1 +:+ (split_suffix nm).2 = nm.
Proof.
  unfold split_suffix. destruct (PyStr.rfind "." nm) as [i|]; simpl.
  - destruct ((0 <? i)%nat && (i <? String.length nm - 1)%nat); simpl.
    + apply take_drop.
    + by rewrite app_empty_r.
  - by rewrite app_empty_r.
Qed.

Lemma stem_suffix p : stem p +:+ suffix p = name p.
Proof. apply split_suffix_app. Qed.

Lemma stem_suffix_no_sep p :
  PyStr.contains sep (name p) = false ->
  PyStr.contains sep (stem p) = false /\ PyStr.contains sep (suffix p) = false.
Proof.
  rewrite <- (stem_suffix p), contains_app. by intros [??]%orb_false_elim.
Qed.

Lemma name_with_last r l nm : name (mkPath r (l ++ [nm])) = nm.
Proof. unfold name. simpl. apply last_last. Qed.

Lemma parent_with_last r l nm : parent (mkPath r (l ++ [nm])) = mkPath r l.
Proof. unfold parent. simpl. by rewrite removelast_last. Qed.

End Paths.

(** ** The default output path *)

Lemma default_out_path_ok (s mode : string) :
  name (Path s) <> "" -> In mode recognised_modes ->
  default_out_path (Path s) mode
  = inr (mkPath (root (Path s))
           (removelast (parts (Path s)) ++
              [(stem (Path s) +:+ "_flipped_" +:+ mode) +:+ suffix (Path s)])).
Proof.
  intros Hname Hmode. unfold default_out_path, with_name.
  assert (PyStr.truthy (name (Path s)) = true) as ->.
  { destruct (name (Path s)); [done | reflexivity]. }
  set (nm := (stem (Path s) +:+ "_flipped_" +:+ mode) +:+ suffix (Path s)).
  assert (valid_name nm = true) as ->; [|reflexivity].
  assert (9 <= String.length nm) as Hlen.
  { unfold nm. rewrite !length_app. simpl. lia. }
  unfold valid_name.
  rewrite truthy_length by lia. rewrite not_dot_length by lia.
  destruct (stem_suffix_no_sep (Path s) (name_no_sep s)) as [Hstem Hsuffix].
  unfold nm. rewrite !contains_app, Hstem, Hsuffix.
  destruct Hmode as [<-|[<-|[<-|[]]]]; reflexivity.
Qed.

(** C9.  Without [--output], the single-file run writes to the path whose
    name is the stem of the input, then [_flipped_], the mode and the
    extension of the input, in the directory of the input: [main] hands
    exactly this path to [process_file] (after the fallback warning, when
    the OpenCV backend was asked for and is missing). *)
Theorem default_output_beside_input `{ImageLibs} (args : Args) (s : string)
  (w : world) :
  arg_input args = Some s ->
  truthy_opt (arg_output args) = false ->
  In (arg_mode args) recognised_modes ->
  name (Path s) <> "" ->
  FS.exists_ (fs w) (Path s) = true ->
  let fallback :=
    String.eqb (PyStr.lower (arg_backend args)) "opencv" && negb _cv2_available in
  let backend := if fallback then "pillow" else PyStr.lower (arg_backend args) in
  let w0 := if fallback
            then mkWorld (fs w) (console w ++ [(Stderr, fallback_warning)])
            else w in
  exists out_path,
    default_out_path (Path s) (arg_mode args) = inr out_path
    /\ name out_path
       = (stem (Path s) +:+ "_flipped_" +:+ arg_mode args) +:+ suffix (Path s)
    /\ parent out_path = parent (Path s)
    /\ main args w
       = (success <- process_file (Path s) out_path (arg_mode args)
                       (arg_overwrite args) backend ;;
          if negb success then ret (Some 1%Z) else ret None) w0.
Proof.
  intros Hin Hout Hmode Hname Hexists fallback backend w0.
  eexists. split; [by apply default_out_path_ok|].
  split; [apply name_with_last|]. split; [apply parent_with_last|].
  assert (truthy_opt (Some s) = true) as Htruthy.
  { simpl. destruct s; [|done]. by destruct Hname. }
  assert (fs w0 = fs w) as Hfs by (unfold w0; by destruct fallback).
  unfold main. fold fallback. rewrite Hin, Hout, Htruthy.
  unfold bind at 1.
  assert ((if fallback
           then print_to Stderr fallback_warning ;;; ret "pillow"
           else ret (PyStr.lower (arg_backend args))) w = (inr backend, w0)) as ->.
  { unfold backend, w0. by destruct fallback. }
  unfold bind at 1. unfold Path_of, lift at 1.
  unfold bind at 1. unfold ask at 1. rewrite Hfs, Hexists. cbn [negb].
  unfold bind at 1. unfold lift at 1.
  by rewrite default_out_path_ok.
Qed.

Lemma default_output_beside_input_witness :
  exists out_path,
    default_out_path (Path "photo.jpg") "vertical" = inr out_path
    /\ name out_path
       = (stem (Path "photo.jpg") +:+ "_flipped_" +:+ "vertical")
         +:+ suffix (Path "photo.jpg")
    /\ parent out_path = parent (Path "photo.jpg")
    /\ @main (toy_libs false)
         (mkArgs (Some "photo.jpg") None None None "vertical" false "opencv")
         demo_world
       = (success <- @process_file (toy_libs false) (Path "photo.jpg") out_path
                       "vertical" false "pillow" ;;
          if negb success then ret (Some 1%Z) else ret None)
           (mkWorld demo_fs [(Stderr, fallback_warning)]).
Proof.
  apply (@default_output_beside_input (toy_libs false)
           (mkArgs (Some "photo.jpg") None None None "vertical" false "opencv")
           "photo.jpg" demo_world);
    try reflexivity.
  - simpl. auto.
  - discriminate.
Defined.

Example photo_flipped_vertical :
  default_out_path (Path "photo.jpg") "vertical"
  = inr (Path "photo_flipped_vertical.jpg")
  /\ default_out_path (Path "/data/in/Photo.test.JPG") "both"
     = inr (Path "/data/in/Photo.test_flipped_both.JPG").
Proof. split; reflexivity. Qed.

(** ** What a computation prints *)

Section Emits.

Context {A B : Type} (P : stream * string -> Prop).

Lemma emits_ret (a : A) : emits P (ret a).
Proof. intros w. exists []. by rewrite app_nil_r. Qed.

Lemma emits_raise e : emits P (@raise A e).
Proof. intros w. exists []. by rewrite app_nil_r. Qed.

Lemma emits_lift (r : result A) : emits P (lift r).
Proof. intros w. exists []. by rewrite app_nil_r. Qed.

Lemma emits_ask (f : gmap path node -> A) : emits P (ask f).
Proof. intros w. exists []. by rewrite app_nil_r. Qed.

Lemma emits_attempt (f : gmap path node -> result A) : emits P (attempt f).
Proof. intros w. exists []. by rewrite app_nil_r. Qed.

Lemma emits_bind (c : M A) (k : A -> M B) :
  emits P c -> (forall a, emits P (k a)) -> emits P (bind c k).
Proof.
  intros Hc Hk w. unfold bind. destruct (Hc w) as (evs & Hevs & HP).
  destruct (c w) as [[e|a] w1]; simpl in *.
  - by exists evs.
  - destruct (Hk a w1) as (evs' & Hevs' & HP').
    exists (evs ++ evs'). rewrite Hevs', Hevs, app_assoc.
    split; [done | by apply Forall_app].
Qed.


End Emits.

Lemma emits_update P f : emits P (update f).
Proof.
  intros w. exists []. rewrite app_nil_r. unfold update.
  by destruct (f (fs w)).
Qed.

Lemma emits_print_to P s line : P (s, line) -> emits P (print_to s line).
Proof. intros HP w. exists [(s, line)]. split; [done | by constructor]. Qed.

Lemma emits_for_each {A} P (l : list A) (body : A -> M unit) :
  (forall x, emits P (body x)) -> emits P (for_each l body).
Proof.
  intros Hbody. induction l as [|x l IH]; simpl.
  - apply emits_ret.
  - apply emits_bind; [apply Hbody | intros _; apply IH].
Qed.


(** A computation that prints nothing. *)
Lemma emits_nothing {A} (c : M A) w :
  emits (fun _ => False) c -> console (c w).2 = console w.
Proof.
  intros Hc. destruct (Hc w) as (evs & Hevs & HP).
  destruct evs as [|ev evs]; [by rewrite Hevs, app_nil_r|].
  by apply Forall_inv in HP.
Qed.

Ltac emits_step :=
  first
    [ apply emits_ret | apply emits_raise | apply emits_lift | apply emits_ask
    | apply emits_attempt | apply emits_update
    | apply emits_bind; [|intros ?]
    | match goal with
      | |- emits _ (if ?b then _ else _) => destruct b
      | |- emits _ (match ?x with _ => _ end) => destruct x
      end ].

Ltac emits_auto := repeat emits_step.

(** ** One report per processed file *)

Section Reports.

Context `{ImageLibs}.

Implicit Types (w : world) (p : path).

Lemma Image_save_silent img out_path kw :
  emits (fun _ => False) (Image_save img out_path kw).
Proof. unfold Image_save. emits_auto. Qed.

Lemma tofile_silent enc out_path : emits (fun _ => False) (tofile enc out_path).
Proof. unfold tofile. emits_auto. Qed.

Lemma save_pillow_with_exif_silent img out_path original :
  emits (fun _ => False) (save_pillow_with_exif img out_path original).
Proof.
  unfold save_pillow_with_exif.
  apply emits_bind; [apply emits_update | intros _; apply Image_save_silent].
Qed.

(** The [try] block prints [[+] Saved: ...] when it succeeds and nothing
    when it raises. *)
Lemma process_body_console in_path out_path mode backend w :
  let r := process_body in_path out_path mode backend w in
  (exists e, r.1 = inl e /\ console r.2 = console w)
  \/ (r.1 = inr true
      /\ console r.2 = console w ++ [(Stdout, "[+] Saved: " +:+ str out_path)]).
Proof.
  intros r. subst r. unfold process_body.
  match goal with
  | |- context [bind ?c ?k w] => set (branch := c)
  end.
  assert (emits (fun _ => False) branch) as Hsilent.
  { unfold branch.
    repeat first
      [ apply tofile_silent | apply save_pillow_with_exif_silent | emits_step ]. }
  pose proof (emits_nothing branch w Hsilent) as Hconsole.
  unfold bind. destruct (branch w) as [[e|[]] w1]; simpl in *.
  - left. eauto.
  - right. by rewrite Hconsole.
Qed.

(** Every call of [process_file] returns and prints exactly one line, about
    the file it was called on. *)
Lemma process_file_report in_path out_path mode overwrite backend w :
  exists b w' line,
    process_file in_path out_path mode overwrite backend w = (inr b, w')
    /\ console w' = console w ++ [(Stdout, line)]
    /\ reports in_path out_path line.
Proof.
  unfold process_file, bind, ask, reports. cbv beta.
  destruct (FS.exists_ (fs w) in_path); cbn [negb].
  2: { do 3 eexists. split; [reflexivity|]. simpl. eauto. }
  destruct (negb overwrite && FS.exists_ (fs w) out_path).
  { do 3 eexists. split; [reflexivity|]. simpl. eauto. }
  unfold try_except.
  pose proof (process_body_console in_path out_path mode backend w) as Hbody.
  destruct (process_body in_path out_path mode backend w) as [[e|b] w1];
    simpl in Hbody.
  - destruct Hbody as [(e' & [= <-] & Hconsole)|[[=] _]].
    rewrite process_handler_run. do 3 eexists. split; [reflexivity|].
    simpl. rewrite Hconsole. split; [reflexivity|].
    right. right. right. by exists e.
  - destruct Hbody as [(e' & [=] & _)|[[= ->] Hconsole]].
    do 3 eexists. split; [reflexivity|]. eauto.
Qed.

Lemma process_file_emits P in_path out_path mode overwrite backend :
  (forall line, P (Stdout, line)) ->
  emits P (process_file in_path out_path mode overwrite backend).
Proof.
  intros HP w.
  destruct (process_file_report in_path out_path mode overwrite backend w)
    as (b & w' & line & -> & Hconsole & _).
  exists [(Stdout, line)]. split; [done | by repeat constructor].
Qed.

End Reports.

(** ** The backend fallback *)

Section Fallback.

Context `{ImageLibs}.

Lemma stdout_not_warning line : not_warning (Stdout, line).
Proof. discriminate. Qed.

Lemma batch_process_folder_emits P in_folder out_folder mode overwrite backend :
  (forall line, P (Stdout, line)) ->
  emits P (batch_process_folder in_folder out_folder mode overwrite backend).
Proof.
  intros HP. unfold batch_process_folder.
  apply emits_bind; [apply emits_ask | intros ok].
  destruct (negb ok); [by apply emits_print_to|].
  apply emits_bind; [apply emits_update | intros _].
  apply emits_bind; [apply emits_ask | intros files].
  destruct files as [|p files]; [by apply emits_print_to|].
  apply emits_for_each. intros q.
  apply emits_bind; [by apply process_file_emits | intros _; apply emits_ret].
Qed.

(** Without the fallback, [main] never prints the fallback warning. *)
Lemma main_no_warning args :
  String.eqb (PyStr.lower (arg_backend args)) "opencv" && negb _cv2_available = false ->
  emits not_warning (main args).
Proof.
  intros Hbackend. unfold main. rewrite Hbackend.
  apply emits_bind; [apply emits_ret | intros backend].
  destruct (truthy_opt (arg_input args)).
  - apply emits_bind; [apply emits_lift | intros in_path].
    apply emits_bind; [apply emits_ask | intros found].
    destruct (negb found).
    + apply emits_bind; [|intros _; apply emits_ret].
      apply emits_print_to. unfold not_warning, fallback_warning. simpl.
      intros [=].
    + apply emits_bind; [destruct (truthy_opt _); apply emits_lift | intros out_path].
      apply emits_bind; [apply process_file_emits, stdout_not_warning | intros b].
      destruct (negb b); apply emits_ret.
  - apply emits_bind; [apply emits_lift | intros in_folder].
    destruct (negb (truthy_opt (arg_output_folder args))).
    + apply emits_bind; [|intros _; apply emits_ret].
      apply emits_print_to. discriminate.
    + apply emits_bind; [apply emits_lift | intros out_folder].
      apply emits_bind; [|intros _; apply emits_ret].
      apply batch_process_folder_emits, stdout_not_warning.
Qed.

End Fallback.

(** C8.  When [--backend opencv] is asked for and OpenCV is missing, [main]
    prints the fallback warning to the error stream once, before anything
    else happens, and then runs exactly as it does with [--backend pillow]:
    every later event differs from the warning. *)
Theorem opencv_fallback_once `{ImageLibs} (args : Args) (w : world) :
  _cv2_available = false ->
  PyStr.lower (arg_backend args) = "opencv" ->
  let warned := mkWorld (fs w) (console w ++ [(Stderr, fallback_warning)]) in
  main args w = main (with_backend args "pillow") warned
  /\ exists rest,
       console (main args w).2 = console w ++ (Stderr, fallback_warning) :: rest
       /\ Forall (fun ev => ev <> (Stderr, fallback_warning)) rest.
Proof.
  intros Hcv2 Hbackend warned.
  assert (main args w = main (with_backend args "pillow") warned) as Hrun.
  { unfold main. rewrite Hbackend, Hcv2. reflexivity. }
  split; [exact Hrun|].
  destruct (main_no_warning (with_backend args "pillow") eq_refl warned)
    as (rest & Hrest & Hno).
  exists rest. rewrite Hrun, Hrest. unfold warned. simpl.
  by rewrite <- app_assoc.
Qed.

Lemma opencv_fallback_once_witness :
  let args := mkArgs None (Some "in") None (Some "out") "horizontal" false "opencv" in
  let warned := mkWorld demo_fs [(Stderr, fallback_warning)] in
  @main (toy_libs false) args demo_world
  = @main (toy_libs false) (with_backend args "pillow") warned
  /\ exists rest,
       console (@main (toy_libs false) args demo_world).2
       = console demo_world ++ (Stderr, fallback_warning) :: rest
       /\ Forall (fun ev => ev <> (Stderr, fallback_warning)) rest.
Proof.
  intros args.
  apply (@opencv_fallback_once (toy_libs false) args demo_world); reflexivity.
Defined.

Example opencv_fallback_batch :
  console (@main (toy_libs false)
             (mkArgs None (Some "in") None (Some "out") "horizontal" false "opencv")
             demo_world).2
  = [(Stderr, fallback_warning);
     (Stdout, "[!] Output file already exists (use --overwrite to replace): out/a.jpg");
     (Stdout, "[+] Saved: out/b.PNG");
     (Stdout, "[!] Failed to process in/c.gif: cannot identify image file")].
Proof. vm_compute. reflexivity. Qed.

(** ** The order of paths *)

Section PathOrder.

Implicit Types (l : list string) (p q : path).










End PathOrder.

(** ** Batch processing *)

Section Batch.

Context `{ImageLibs}.

Implicit Types (m : gmap path node) (d p : path) (w : world).











End Batch.



(** * Further properties of the program *)

(** ** What a computation leaves alone in the file system *)

Section Untouched.

Implicit Types (m : gmap path node) (except : list path).

Lemma untouched_refl except m : untouched except m m.
Proof. by intros q n _ Hq. Qed.

Lemma untouched_trans except m1 m2 m3 :
  untouched except m1 m2 -> untouched except m2 m3 -> untouched except m1 m3.
Proof. intros H12 H23 q n Hq Hm. eapply H23; [done|]. by eapply H12. Qed.

Lemma untouched_weaken except m m' : untouched [] m m' -> untouched except m m'.
Proof. intros Hm q n _ Hq. apply (Hm q n); [apply not_elem_of_nil | done]. Qed.

Lemma untouched_subseteq m m' : untouched [] m m' <-> m ⊆ m'.
Proof.
  rewrite map_subseteq_spec. split.
  - intros Hm q n Hq. apply (Hm q n); [apply not_elem_of_nil | done].
  - intros Hm q n _ Hq. by apply Hm.
Qed.

Lemma untouched_insert_fresh except m p n :
  m !! p = None -> untouched except m (<[p := n]> m).
Proof.
  intros Hp q n' _ Hq. rewrite lookup_insert_ne; [done|]. intros ->. congruence.
Qed.

Lemma untouched_insert m p n : untouched [p] m (<[p := n]> m).
Proof.
  intros q n' Hq Hm. rewrite lookup_insert_ne; [done|]. intros ->.
  apply Hq. by left.
Qed.

Lemma untouched_delete m p : untouched [p] m (delete p m).
Proof.
  intros q n' Hq Hm. rewrite lookup_delete_ne; [done|]. intros ->.
  apply Hq. by left.
Qed.

(** A path that [node_at] does not find is not a key of the map. *)
Lemma node_at_None m p : FS.node_at m p = None -> m !! p = None.
Proof. unfold FS.node_at. by destruct (parts p). Qed.

Lemma os_mkdir_untouched m p m' : FS.os_mkdir m p = inr m' -> untouched [] m m'.
Proof.
  unfold FS.os_mkdir. destruct (FS.node_at m p) eqn:Hp; [done|].
  destruct (FS.node_at m (parent p)) as [[|]|]; try done;
    [|by destruct (FS.file_above m p)].
  intros [= <-]. by apply untouched_insert_fresh, node_at_None.
Qed.

Lemma mkdir_exist_ok_untouched m p m' :
  FS.mkdir_exist_ok m p = inr m' -> untouched [] m m'.
Proof.
  unfold FS.mkdir_exist_ok.
  destruct (FS.os_mkdir m p) as [e|m1] eqn:Hmk.
  - destruct (exn_cls e); try done;
      (destruct (FS.is_dir m p); [intros [= <-]; apply untouched_refl | done]).
  - intros [= <-]. by eapply os_mkdir_untouched.
Qed.

Lemma mkdir_parents_untouched r rp m m' :
  FS.mkdir_parents r rp m = inr m' -> untouched [] m m'.
Proof.
  revert m m'. induction rp as [|c rp IH]; intros m m'; cbn [FS.mkdir_parents];
    destruct (FS.os_mkdir m _) as [e|m1] eqn:Hmk;
    try (intros [= <-]; by eapply os_mkdir_untouched).
  - destruct (exn_cls e); try done;
      (destruct (FS.is_dir m _); [intros [= <-]; apply untouched_refl | done]).
  - destruct (exn_cls e) eqn:Hcls;
      try (destruct (FS.is_dir m _); [intros [= <-]; apply untouched_refl | done]).
    destruct (FS.mkdir_parents r rp m) as [e'|m2] eqn:Hrec; [done|].
    intros Hlast. eapply untouched_trans; [by eapply IH|].
    by eapply mkdir_exist_ok_untouched.
Qed.

(** [mkdir(parents=True, exist_ok=True)] only adds directories. *)
Lemma mkdir_untouched m p m' : FS.mkdir m p = inr m' -> untouched [] m m'.
Proof. apply mkdir_parents_untouched. Qed.

Lemma open_w_untouched m p m' : FS.open_w m p = inr m' -> untouched [p] m m'.
Proof.
  unfold FS.open_w. destruct (FS.node_at m p) as [[|]|].
  - intros [= <-]. apply untouched_insert.
  - done.
  - destruct (FS.node_at m (parent p)) as [[|]|]; try done.
    intros [= <-]. apply untouched_insert.
Qed.

End Untouched.

Section Keeps.

Context {A B : Type} (except : list path).

Lemma keeps_ret (a : A) : keeps except (ret a).
Proof. intros w. apply untouched_refl. Qed.

Lemma keeps_raise e : keeps except (@raise A e).
Proof. intros w. apply untouched_refl. Qed.

Lemma keeps_lift (r : result A) : keeps except (lift r).
Proof. intros w. apply untouched_refl. Qed.

Lemma keeps_ask (f : gmap path node -> A) : keeps except (ask f).
Proof. intros w. apply untouched_refl. Qed.

Lemma keeps_attempt (f : gmap path node -> result A) : keeps except (attempt f).
Proof. intros w. apply untouched_refl. Qed.

Lemma keeps_bind (c : M A) (k : A -> M B) :
  keeps except c -> (forall a, keeps except (k a)) -> keeps except (bind c k).
Proof.
  intros Hc Hk w. unfold bind. specialize (Hc w).
  destruct (c w) as [[e|a] w1]; simpl in *; [done|].
  eapply untouched_trans; [exact Hc | apply Hk].
Qed.

Lemma keeps_try_except (c : M A) (h : exn -> M A) :
  keeps except c -> (forall e, keeps except (h e)) -> keeps except (try_except c h).
Proof.
  intros Hc Hh w. unfold try_except. specialize (Hc w).
  destruct (c w) as [[e|a] w1]; simpl in *; [|done].
  eapply untouched_trans; [exact Hc | apply Hh].
Qed.

End Keeps.

Lemma keeps_print_to except s line : keeps except (print_to s line).
Proof. intros w. apply untouched_refl. Qed.

Lemma keeps_update except f :
  (forall m m', f m = inr m' -> untouched except m m') -> keeps except (update f).
Proof.
  intros Hf w. unfold update. destruct (f (fs w)) as [e|m'] eqn:Hm; simpl.
  - apply untouched_refl.
  - by apply Hf.
Qed.

Lemma keeps_for_each {A} except (l : list A) (body : A -> M unit) :
  (forall x, keeps except (body x)) -> keeps except (for_each l body).
Proof.
  intros Hbody. induction l as [|x l IH]; simpl.
  - apply keeps_ret.
  - apply keeps_bind; [apply Hbody | intros _; apply IH].
Qed.

Lemma keeps_weaken {A} except (c : M A) : keeps [] c -> keeps except c.
Proof. intros Hc w. apply untouched_weaken, Hc. Qed.

Ltac keeps_step :=
  first
    [ apply keeps_ret | apply keeps_raise | apply keeps_lift | apply keeps_ask
    | apply keeps_attempt | apply keeps_print_to
    | apply keeps_bind; [|intros ?]
    | match goal with
      | |- keeps _ (if ?b then _ else _) => destruct b
      | |- keeps _ (match ?x with _ => _ end) => destruct x
      end ].

(** ** Splitting and joining path strings *)

Section Join.

Implicit Types (c d : ascii) (s t : string) (l : list string) (p : path).

Lemma app_assoc_s s t u : (s +:+ t) +:+ u = s +:+ t +:+ u.
Proof.
  induction s as [|c s IH]; [done|].
  change (String c ((s +:+ t) +:+ u) = String c (s +:+ t +:+ u)). by rewrite IH.
Qed.

Lemma split_go_app c cur s t :
  PyStr.split_go c cur (s +:+ String c t)
  = PyStr.split_go c cur s ++ PyStr.split c t.
Proof.
  revert cur. induction s as [|d s IH]; intros cur.
  - simpl. by rewrite Ascii.eqb_refl.
  - change (String d s +:+ String c t) with (String d (s +:+ String c t)).
    simpl. destruct (Ascii.eqb c d); by rewrite IH.
Qed.

Lemma split_app c s t :
  PyStr.split c (s +:+ String c t) = PyStr.split c s ++ PyStr.split c t.
Proof. apply split_go_app. Qed.

Lemma split_go_no_c c cur t :
  PyStr.contains c t = false -> PyStr.split_go c cur t = [String.rev_app cur t].
Proof.
  revert cur. induction t as [|d t IH]; intros cur; simpl; [done|].
  destruct (Ascii.eqb c d); [done|]. intros Ht. by rewrite IH.
Qed.

Lemma split_no_c c t : PyStr.contains c t = false -> PyStr.split c t = [t].
Proof. intros Ht. unfold PyStr.split. by rewrite split_go_no_c. Qed.

Lemma split_join c l :
  l <> [] -> Forall (fun t => PyStr.contains c t = false) l ->
  PyStr.split c (PyStr.join (String c "") l) = l.
Proof.
  intros Hl Hall. induction Hall as [|x l Hx Hall IH]; [done|].
  destruct l as [|y l]; [by apply split_no_c|].
  change (PyStr.join (String c "") (x :: y :: l))
    with (x +:+ String c (PyStr.join (String c "") (y :: l))).
  by rewrite split_app, split_no_c, IH.
Qed.

Lemma last_char_app s c t : last_char (s +:+ String c t) = last_char (String c t).
Proof.
  induction s as [|d s IH]; [done|].
  destruct s as [|e s]; [reflexivity | exact IH].
Qed.

Lemma last_char_cons c s : is_Some (last_char (String c s)).
Proof.
  revert c. induction s as [|d s IH]; intros c; [by eexists|]. apply (IH d).
Qed.

Lemma rev_app_head s acc :
  match String.rev_app s acc with
  | String h _ => Some h
  | EmptyString => None
  end
  = match last_char s with
    | Some h => Some h
    | None => match acc with String h _ => Some h | EmptyString => None end
    end.
Proof.
  revert acc. induction s as [|d s IH]; intros acc; [done|].
  cbn [String.rev_app]. rewrite IH. destruct s as [|e s]; [done|].
  destruct (last_char_cons e s) as [h Hh].
  change (last_char (String d (String e s))) with (last_char (String e s)).
  by rewrite Hh.
Qed.

Lemma ends_with_sep_last s :
  ends_with_sep s = match last_char s with Some "/"%char => true | _ => false end.
Proof.
  unfold ends_with_sep, String.rev.
  pose proof (rev_app_head s "") as Hhead.
  destruct (String.rev_app s "") as [|h r], (last_char s) as [h'|];
    simplify_eq/=; done.
Qed.

Lemma last_char_no_c c t : PyStr.contains c t = false -> last_char t <> Some c.
Proof.
  induction t as [|d t IH]; simpl; [done|].
  destruct (Ascii.eqb_spec c d) as [|Hne]; [done|]. intros Ht.
  destruct t; [congruence | by apply IH].
Qed.

Lemma parse_root_relative c t :
  Ascii.eqb sep c = false -> parse_root (String c t) = "".
Proof. destruct c as [[] [] [] [] [] [] [] []]; done. Qed.

Lemma parse_root_absolute c t :
  Ascii.eqb sep c = false -> parse_root (String "/" (String c t)) = "/".
Proof. destruct c as [[] [] [] [] [] [] [] []]; done. Qed.

Lemma parse_root_double c t :
  Ascii.eqb sep c = false -> parse_root (String "/" (String "/" (String c t))) = "//".
Proof. destruct c as [[] [] [] [] [] [] [] []]; done. Qed.

Lemma posix_join_relative a c t :
  Ascii.eqb sep c = false ->
  posix_join a (String c t)
  = if negb (PyStr.truthy a) || ends_with_sep a then a +:+ String c t
    else a +:+ "/" +:+ String c t.
Proof. destruct c as [[] [] [] [] [] [] [] []]; done. Qed.

Lemma filter_keep_cons x l :
  filter (fun t => Is_true (keep_part t)) (x :: l)
  = if keep_part x then x :: filter (fun t => Is_true (keep_part t)) l
    else filter (fun t => Is_true (keep_part t)) l.
Proof.
  rewrite filter_cons. destruct (keep_part x); by case_decide.
Qed.

Lemma filter_keep_all l :
  Forall (fun t => keep_part t = true) l ->
  filter (fun t => Is_true (keep_part t)) l = l.
Proof.
  induction 1 as [|x l Hx Hall IH]; [done|].
  by rewrite filter_keep_cons, Hx, IH.
Qed.

Lemma valid_name_inv n :
  valid_name n = true ->
  keep_part n = true /\ PyStr.contains sep n = false
  /\ exists c t, n = String c t /\ Ascii.eqb sep c = false.
Proof.
  unfold valid_name, keep_part.
  intros [[Htruthy Hsep%negb_true_iff]%andb_true_iff Hdot]%andb_true_iff.
  split; [by apply andb_true_iff|]. split; [done|].
  destruct n as [|c t]; [done|]. exists c, t. split; [done|].
  cbn [PyStr.contains] in Hsep. by destruct (Ascii.eqb sep c).
Qed.

Lemma keep_part_cons x :
  keep_part x = true -> PyStr.contains sep x = false ->
  exists c t, x = String c t /\ Ascii.eqb sep c = false.
Proof.
  unfold keep_part. intros [Htruthy _]%andb_true_iff Hsep.
  destruct x as [|c t]; [done|]. exists c, t. split; [done|].
  cbn [PyStr.contains] in Hsep. by destruct (Ascii.eqb sep c).
Qed.

Lemma join_head c t l :
  exists u, PyStr.join "/" (String c t :: l) = String c u.
Proof. destruct l; simpl; by eexists. Qed.

Lemma last_char_join l :
  l <> [] -> Forall (fun x => PyStr.truthy x = true) l ->
  last_char (PyStr.join "/" l) = last_char (List.last l "").
Proof.
  intros Hl Hall. induction Hall as [|x l Hx Hall IH]; [done|].
  destruct l as [|y l]; [done|].
  change (PyStr.join "/" (x :: y :: l))
    with (x +:+ String "/" (PyStr.join "/" (y :: l))).
  apply Forall_cons in Hall as [Hy Hall].
  destruct y as [|c t]; [done|].
  destruct (join_head c t l) as [u Hu].
  rewrite last_char_app, Hu.
  change (last_char (String "/" (String c u))) with (last_char (String c u)).
  rewrite <- Hu, IH by done. reflexivity.
Qed.

Lemma Path_parsed s : parsed (Path s).
Proof.
  split.
  - unfold Path. cbn [root]. unfold parse_root. repeat case_match; simpl; auto.
  - pose proof (Path_parts_no_sep s) as Hsep. unfold Path in *. cbn [parts] in *.
    rewrite Forall_forall in *. intros t Ht. split; [|by apply Hsep].
    apply list_elem_of_filter in Ht as [Ht _]. by apply Is_true_true.
Qed.

Lemma not_sep_match (o : option ascii) :
  o <> Some sep ->
  match o with Some "/"%char => true | _ => false end = false.
Proof.
  destruct o as [h|]; [|done].
  destruct h as [[] [] [] [] [] [] [] []]; done.
Qed.

(** The string of a parsed path with components does not end in a slash. *)
Lemma str_not_dir r x l :
  Forall (fun t => keep_part t = true /\ PyStr.contains sep t = false) (x :: l) ->
  exists c u,
    PyStr.join "/" (x :: l) = String c u
    /\ Ascii.eqb sep c = false
    /\ ends_with_sep (r +:+ String c u) = false.
Proof.
  intros Hall. pose proof Hall as [[Hkeep Hsep] _]%Forall_cons.
  destruct (keep_part_cons x Hkeep Hsep) as (c & t & -> & Hc).
  destruct (join_head c t l) as [u Hu]. exists c, u. split_and!; try done.
  rewrite ends_with_sep_last, last_char_app, <- Hu.
  rewrite last_char_join; [|done|].
  - apply not_sep_match, last_char_no_c.
    assert (forall dflt : string, PyStr.contains sep dflt = false ->
              PyStr.contains sep (List.last (String c t :: l) dflt) = false) as Hlast.
    { revert Hall. generalize (String c t :: l). intros l' Hall.
      induction Hall as [|y l' [_ Hy] Hall IH]; intros dflt Hd; [done|].
      destruct l'; [done | by apply IH]. }
    by apply Hlast.
  - eapply Forall_impl; [exact Hall|]. intros y [Hy _].
    unfold keep_part in Hy. by apply andb_true_iff in Hy as [? _].
Qed.

(** [p / n] for a parsed path and a valid file name appends the name. *)
Lemma joinpath_parsed p n :
  parsed p -> valid_name n = true ->
  joinpath p n = mkPath (root p) (parts p ++ [n]).
Proof.
  intros [Hroot Hparts] (Hkeep & Hsep & c & t & -> & Hc)%valid_name_inv.
  destruct p as [r l]. cbn [root parts] in *.
  unfold joinpath. rewrite posix_join_relative by done.
  assert (PyStr.split sep (String c t) = [String c t]) as Hsplit
    by by apply split_no_c.
  destruct l as [|x l].
  - unfold Path. destruct Hroot as [<-|[<-|[<-|[]]]].
    + change (str {| root := ""; parts := [] |}) with ".".
      change (negb (PyStr.truthy ".") || ends_with_sep ".") with false.
      cbv iota. f_equal.
      change (PyStr.split sep ("." +:+ "/" +:+ String c t))
        with ("." :: PyStr.split sep (String c t)).
      by rewrite Hsplit, !filter_keep_cons, Hkeep.
    + change (str {| root := "/"; parts := [] |}) with "/".
      change (negb (PyStr.truthy "/") || ends_with_sep "/") with true.
      cbv iota. f_equal; [by apply parse_root_absolute|].
      change (PyStr.split sep ("/" +:+ String c t))
        with ("" :: PyStr.split sep (String c t)).
      by rewrite Hsplit, !filter_keep_cons, Hkeep.
    + change (str {| root := "//"; parts := [] |}) with "//".
      change (negb (PyStr.truthy "//") || ends_with_sep "//") with true.
      cbv iota. f_equal; [by apply parse_root_double|].
      change (PyStr.split sep ("//" +:+ String c t))
        with ("" :: "" :: PyStr.split sep (String c t)).
      by rewrite Hsplit, !filter_keep_cons, Hkeep.
  - destruct (str_not_dir r x l Hparts) as (c0 & u & Hu & Hc0 & Hend).
    assert (PyStr.split sep (String c0 u) = x :: l) as Hsplit0.
    { rewrite <- Hu. apply split_join; [done|].
      eapply Forall_impl; [exact Hparts|]. by intros y [_ Hy]. }
    assert (filter (fun t => Is_true (keep_part t)) ((x :: l) ++ [String c t])
            = (x :: l) ++ [String c t]) as Hfilter.
    { apply filter_keep_all, Forall_app. split.
      - eapply Forall_impl; [exact Hparts|]. by intros y [Hy _].
      - by repeat constructor. }
    assert (str {| root := r; parts := x :: l |} = r +:+ String c0 u) as ->.
    { unfold str. cbn [root parts]. rewrite Hu.
      by destruct Hroot as [<-|[<-|[<-|[]]]]. }
    rewrite Hend, orb_false_r.
    assert (PyStr.truthy (r +:+ String c0 u) = true) as ->
      by by destruct Hroot as [<-|[<-|[<-|[]]]].
    cbn [negb]. unfold Path.
    destruct Hroot as [<-|[<-|[<-|[]]]].
    + change (("" +:+ String c0 u) +:+ "/" +:+ String c t)
        with (String c0 u +:+ String sep (String c t)).
      f_equal.
      * change (String c0 u +:+ String sep (String c t))
          with (String c0 (u +:+ String sep (String c t))).
        by apply parse_root_relative.
      * by rewrite split_app, Hsplit0, Hsplit, Hfilter.
    + change (("/" +:+ String c0 u) +:+ "/" +:+ String c t)
        with ("" +:+ String sep (String c0 u +:+ String sep (String c t))).
      f_equal.
      * change ("" +:+ String sep (String c0 u +:+ String sep (String c t)))
          with (String "/" (String c0 (u +:+ String sep (String c t)))).
        by apply parse_root_absolute.
      * rewrite !split_app, Hsplit0, Hsplit.
        change (PyStr.split sep "") with [""].
        cbn [app]. rewrite filter_keep_cons. exact Hfilter.
    + change (("//" +:+ String c0 u) +:+ "/" +:+ String c t)
        with ("" +:+ String sep
                ("" +:+ String sep (String c0 u +:+ String sep (String c t)))).
      f_equal.
      * change ("" +:+ String sep
                  ("" +:+ String sep (String c0 u +:+ String sep (String c t))))
          with (String "/" (String "/" (String c0 (u +:+ String sep (String c t))))).
        by apply parse_root_double.
      * rewrite !split_app, Hsplit0, Hsplit.
        change (PyStr.split sep "") with [""].
        cbn [app]. do 2 rewrite filter_keep_cons. exact Hfilter.
Qed.

End Join.

(** ** Runs of [process_file], [batch_process_folder] and [main] *)


Section FileFrame.

Context `{ImageLibs}.

Implicit Types (w : world) (p : path).

Lemma Image_save_keeps img out_path kw : keeps [out_path] (Image_save img out_path kw).
Proof.
  unfold Image_save.
  apply keeps_bind; [apply keeps_lift | intros plan].
  apply keeps_bind; [apply keeps_ask | intros created].
  apply keeps_bind; [apply keeps_update; intros m m'; apply open_w_untouched | intros _].
  apply keeps_bind.
  { apply keeps_update. intros m m' [= <-]. apply untouched_insert. }
  intros _. destruct (plan.2); [|apply keeps_ret].
  apply keeps_bind; [|intros _; apply keeps_raise].
  destruct created; [|apply keeps_ret].
  apply keeps_update. intros m m' [= <-]. apply untouched_delete.
Qed.

Lemma tofile_keeps enc out_path : keeps [out_path] (tofile enc out_path).
Proof.
  unfold tofile.
  apply keeps_bind; [apply keeps_update; intros m m'; apply open_w_untouched | intros _].
  apply keeps_update. intros m m' [= <-]. apply untouched_insert.
Qed.

Lemma mkdir_keeps except p : keeps except (update (fun m => FS.mkdir m p)).
Proof.
  apply keeps_update. intros m m' Hm. by eapply untouched_weaken, mkdir_untouched.
Qed.

Lemma save_pillow_with_exif_keeps img out_path original :
  keeps [out_path] (save_pillow_with_exif img out_path original).
Proof.
  unfold save_pillow_with_exif.
  apply keeps_bind; [apply mkdir_keeps | intros _; apply Image_save_keeps].
Qed.

Lemma process_body_keeps in_path out_path mode backend :
  keeps [out_path] (process_body in_path out_path mode backend).
Proof.
  unfold process_body.
  repeat first
    [ apply tofile_keeps | apply save_pillow_with_exif_keeps | apply mkdir_keeps
    | keeps_step ].
Qed.

Lemma process_file_keeps in_path out_path mode overwrite backend :
  keeps [out_path] (process_file in_path out_path mode overwrite backend).
Proof.
  unfold process_file, process_handler.
  repeat first
    [ apply keeps_try_except; [apply process_body_keeps | intros ?] | keeps_step ].
Qed.

Lemma tofile_success enc out_path w w' :
  tofile enc out_path w = (inr tt, w') ->
  fs w' !! out_path = Some (File enc) /\ FS.is_dir (fs w) out_path = false.
Proof.
  unfold tofile, bind, update. cbv beta.
  unfold FS.is_dir.
  destruct (FS.open_w (fs w) out_path) as [e|m1] eqn:Hopen; [done|].
  simpl. intros [= <-]. simpl. split; [apply lookup_insert_eq|].
  unfold FS.open_w in Hopen. by destruct (FS.node_at (fs w) out_path) as [[|]|].
Qed.

Lemma Image_save_success img out_path kw w w' :
  Image_save img out_path kw w = (inr tt, w') ->
  exists enc,
    pil_encode img (str out_path) kw = inr (enc, None)
    /\ fs w' !! out_path = Some (File enc)
    /\ FS.is_dir (fs w) out_path = false.
Proof.
  unfold Image_save, bind, lift, ask, update. cbv beta.
  destruct (pil_encode img (str out_path) kw) as [e|[enc failure]]; [done|].
  cbn [fst snd fs].
  destruct (FS.open_w (fs w) out_path) as [e|m1] eqn:Hopen; [done|].
  cbn [fst snd fs]. destruct failure as [e|].
  { destruct (negb (FS.exists_ (fs w) out_path)); cbn; done. }
  intros [= <-]. exists enc. split; [done|]. split; [apply lookup_insert_eq|].
  unfold FS.is_dir, FS.open_w in *.
  by destruct (FS.node_at (fs w) out_path) as [[|]|].
Qed.

Lemma bind_inr {A B} (c : M A) (k : A -> M B) w b w' :
  bind c k w = (inr b, w') ->
  exists a w1, c w = (inr a, w1) /\ k a w1 = (inr b, w').
Proof. unfold bind. destruct (c w) as [[e|a] w1]; [done | eauto]. Qed.

(** [process_file] returns [True] only out of its [try] block. *)
Lemma process_file_true in_path out_path mode overwrite backend w w' :
  process_file in_path out_path mode overwrite backend w = (inr true, w') ->
  FS.exists_ (fs w) in_path = true
  /\ negb overwrite && FS.exists_ (fs w) out_path = false
  /\ process_body in_path out_path mode backend w = (inr true, w').
Proof.
  unfold process_file, bind, ask. cbv beta.
  destruct (FS.exists_ (fs w) in_path); cbn [negb]; [|done].
  destruct (negb overwrite && FS.exists_ (fs w) out_path); [done|].
  unfold try_except.
  destruct (process_body in_path out_path mode backend w) as [[e|b] w1];
    [by rewrite process_handler_run|].
  by intros [= -> ->].
Qed.

Lemma print_run line w : print line w = (inr tt, mkWorld (fs w) (console w ++ [(Stdout, line)])).
Proof. reflexivity. Qed.

Lemma process_file_pillow_sound in_path out_path mode overwrite backend w w' :
  String.eqb backend "opencv" = false ->
  process_file in_path out_path mode overwrite backend w = (inr true, w') ->
  exists data im flipped enc,
    FS.read_bytes (fs w) in_path = inr data
    /\ Image_open data = inr im
    /\ flip_pillow im mode = inr flipped
    /\ pil_encode flipped (str out_path) (save_kwargs (Some im)) = inr (enc, None)
    /\ fs w' !! out_path = Some (File enc)
    /\ console w' = console w ++ [(Stdout, "[+] Saved: " +:+ str out_path)].
Proof.
  intros Hbackend (_ & _ & Hbody)%process_file_true.
  unfold process_body in Hbody. rewrite Hbackend in Hbody.
  apply bind_inr in Hbody as ([] & w1 & Hsave & Hprint).
  apply bind_inr in Hsave as (data & w2 & Hread & Hsave).
  apply bind_inr in Hsave as (im & w3 & Hopen & Hsave).
  apply bind_inr in Hsave as (flipped & w4 & Hflip & Hsave).
  unfold attempt in Hread. unfold lift in Hopen, Hflip.
  injection Hread as Hread <-. injection Hopen as Hopen <-.
  injection Hflip as Hflip <-.
  unfold save_pillow_with_exif in Hsave.
  apply bind_inr in Hsave as ([] & w5 & Hmkdir & Hsave).
  pose proof (emits_nothing (update (fun m => FS.mkdir m (parent out_path))) w
                (emits_update _ _)) as Hc5. rewrite Hmkdir in Hc5.
  pose proof (emits_nothing _ w5 (Image_save_silent flipped out_path
                (save_kwargs (Some im)))) as Hc1. rewrite Hsave in Hc1.
  apply Image_save_success in Hsave as (enc & Henc & Hfile & _).
  exists data, im, flipped, enc. split_and!; try done.
  - revert Hprint. unfold bind, print, print_to, ret. by intros [= <-].
  - revert Hprint. unfold bind, print, print_to, ret. intros [= <-]. simpl in *.
    by rewrite Hc1, Hc5.
Qed.

Lemma process_file_opencv_sound in_path out_path mode overwrite w w' :
  process_file in_path out_path mode overwrite "opencv" w = (inr true, w') ->
  _cv2_available = true
  /\ exists data a code enc,
       FS.read_bytes (fs w) in_path = inr data
       /\ cv2_imdecode data = inr (Some a)
       /\ In (mode, code) [("horizontal", 1%Z); ("vertical", 0%Z); ("both", (-1)%Z)]
       /\ cv2_imencode (suffix out_path) (CV2.flip a code) = inr (true, enc)
       /\ fs w' !! out_path = Some (File enc).
Proof.
  intros (_ & _ & Hbody)%process_file_true.
  unfold process_body in Hbody. cbn [String.eqb Ascii.eqb Bool.eqb] in Hbody.
  apply bind_inr in Hbody as ([] & w1 & Hrun & Hprint).
  destruct _cv2_available; [|done]. split; [done|]. cbn [negb] in Hrun.
  apply bind_inr in Hrun as (data & w2 & Hread & Hrun).
  apply bind_inr in Hrun as (img & w3 & Hdec & Hrun).
  unfold attempt in Hread. unfold lift in Hdec.
  injection Hread as Hread <-. injection Hdec as Hdec <-.
  destruct img as [a|]; [|done].
  apply bind_inr in Hrun as (flipped & w4 & Hflip & Hrun).
  apply bind_inr in Hrun as ([] & w5 & Hmkdir & Hrun).
  apply bind_inr in Hrun as ([ok enc] & w6 & Henc & Hrun).
  unfold lift in Henc. injection Henc as Henc <-.
  destruct ok; [|done]. cbn [negb fst snd] in Hrun.
  apply tofile_success in Hrun as [Hfile _].
  assert (exists code,
    In (mode, code) [("horizontal", 1%Z); ("vertical", 0%Z); ("both", (-1)%Z)]
    /\ flipped = CV2.flip a code) as (code & Hmode & ->).
  { revert Hflip.
    destruct (String.eqb_spec mode "horizontal") as [->|_];
      [intros [= <- _]; exists 1%Z; simpl; auto|].
    destruct (String.eqb_spec mode "vertical") as [->|_];
      [intros [= <- _]; exists 0%Z; simpl; auto|].
    destruct (String.eqb_spec mode "both") as [->|_];
      [intros [= <- _]; exists (-1)%Z; simpl; auto 6 | done]. }
  exists data, a, code, enc. split_and!; try done.
  revert Hprint. unfold bind, print, print_to, ret. by intros [= <-].
Qed.









(** With [overwrite] false and the output path present nothing happens to
    the file system. *)
Lemma process_file_output_taken in_path out_path mode backend w :
  FS.exists_ (fs w) out_path = true ->
  fs (process_file in_path out_path mode false backend w).2 = fs w.
Proof.
  intros Hout. unfold process_file, bind, ask. cbv beta.
  destruct (FS.exists_ (fs w) in_path); cbn [negb]; [|done].
  by rewrite Hout.
Qed.

Lemma lookup_exists m p n : m !! p = Some n -> FS.exists_ m p = true.
Proof.
  intros Hp. unfold FS.exists_, FS.node_at.
  destruct (parts p); [done | by rewrite Hp].
Qed.

Lemma process_file_keeps_all in_path out_path mode backend :
  keeps [] (process_file in_path out_path mode false backend).
Proof.
  intros w q n _ Hq.
  destruct (decide (q = out_path)) as [->|Hne].
  - rewrite process_file_output_taken; [done | by eapply lookup_exists].
  - apply (process_file_keeps in_path out_path mode false backend w q n);
      [|done].
    by intros ->%list_elem_of_singleton.
Qed.

End FileFrame.

Section Runs.

Context `{ImageLibs}.

Implicit Types (w : world) (p : path) (args : Args).

Lemma batch_process_folder_keeps in_folder out_folder mode backend :
  keeps [] (batch_process_folder in_folder out_folder mode false backend).
Proof.
  unfold batch_process_folder.
  apply keeps_bind; [apply keeps_ask | intros ok].
  destruct (negb ok); [apply keeps_print_to|].
  apply keeps_bind; [apply mkdir_keeps | intros _].
  apply keeps_bind; [apply keeps_ask | intros files].
  destruct files as [|p files]; [apply keeps_print_to|].
  apply keeps_for_each. intros q.
  apply keeps_bind; [apply process_file_keeps_all | intros _; apply keeps_ret].
Qed.

Lemma main_keeps args : arg_overwrite args = false -> keeps [] (main args).
Proof.
  intros Hov. unfold main. rewrite Hov.
  repeat first
    [ apply process_file_keeps_all | apply batch_process_folder_keeps
    | keeps_step ].
Qed.

Lemma main_unfold args w :
  main args w
  = (if truthy_opt (arg_input args) then
       in_path <- lift (Path_of (arg_input args)) ;;
       found <- ask (fun m => FS.exists_ m in_path) ;;
       if negb found then
         print_to Stderr ("[!] Input file does not exist: " +:+ str in_path) ;;;
         ret (Some 2%Z)
       else
         out_path <-
           (if truthy_opt (arg_output args) then lift (Path_of (arg_output args))
            else lift (default_out_path in_path (arg_mode args))) ;;
         success <- process_file in_path out_path (arg_mode args)
                      (arg_overwrite args) (effective_backend args) ;;
         if negb success then ret (Some 1%Z) else ret None
     else
       in_folder <- lift (Path_of (arg_input_folder args)) ;;
       if negb (truthy_opt (arg_output_folder args)) then
         print_to Stderr "[!] --output-folder is required when using --input-folder" ;;;
         ret (Some 2%Z)
       else
         out_folder <- lift (Path_of (arg_output_folder args)) ;;
         batch_process_folder in_folder out_folder (arg_mode args)
           (arg_overwrite args) (effective_backend args) ;;;
         ret None) (after_fallback args w).
Proof.
  unfold main, effective_backend, after_fallback, fallback.
  unfold bind at 1. by destruct (_ && _).
Qed.

Lemma fs_after_fallback args w : fs (after_fallback args w) = fs w.
Proof. unfold after_fallback. by destruct (fallback args). Qed.

(** X10.  A single-file run whose input does not exist leaves through
    [sys.exit(2)] after one line on the error stream; nothing is printed to
    standard output and the file system is untouched. *)
Theorem main_missing_input_exits_2 args s w :
  arg_input args = Some s -> PyStr.truthy s = true ->
  FS.exists_ (fs w) (Path s) = false ->
  main args w
  = (inr (Some 2%Z),
     mkWorld (fs w)
       (console (after_fallback args w) ++
          [(Stderr, "[!] Input file does not exist: " +:+ str (Path s))])).
Proof.
  intros Hin Hs Hmissing. rewrite main_unfold, Hin. cbn [truthy_opt]. rewrite Hs.
  unfold bind at 1. unfold Path_of, lift at 1.
  unfold bind at 1. unfold ask at 1. rewrite fs_after_fallback, Hmissing.
  cbn [negb]. unfold bind, print_to, ret. by rewrite fs_after_fallback.
Qed.

(** X11.  A batch run without [--output-folder] leaves through
    [sys.exit(2)] before the input folder is looked at: one line on the
    error stream, no directory created. *)
Theorem main_missing_output_folder_exits_2 args d w :
  truthy_opt (arg_input args) = false ->
  arg_input_folder args = Some d ->
  truthy_opt (arg_output_folder args) = false ->
  main args w
  = (inr (Some 2%Z),
     mkWorld (fs w)
       (console (after_fallback args w) ++
          [(Stderr, "[!] --output-folder is required when using --input-folder")])).
Proof.
  intros Hin Hfolder Hout. rewrite main_unfold, Hin, Hfolder, Hout.
  unfold bind, Path_of, lift, print_to, ret. cbn [negb].
  by rewrite fs_after_fallback.
Qed.


Lemma process_file_true_writes in_path out_path mode overwrite backend w w' :
  process_file in_path out_path mode overwrite backend w = (inr true, w') ->
  exists enc,
    fs w' !! out_path = Some (File enc)
    /\ console w' = console w ++ [(Stdout, "[+] Saved: " +:+ str out_path)].
Proof.
  intros Hrun.
  assert (console w' = console w ++ [(Stdout, "[+] Saved: " +:+ str out_path)])
    as Hconsole.
  { pose proof Hrun as (_ & _ & Hbody)%process_file_true.
    pose proof (process_body_console in_path out_path mode backend w) as Hc.
    rewrite Hbody in Hc. simpl in Hc.
    by destruct Hc as [(e & [=] & _)|[_ Hc]]. }
  destruct (String.eqb_spec backend "opencv") as [->|Hne].
  - apply process_file_opencv_sound in Hrun as (_ & data & a & code & enc & Hrun).
    exists enc. by destruct Hrun as (_ & _ & _ & _ & Hfile).
  - apply process_file_pillow_sound in Hrun
      as (data & im & flipped & enc & _ & _ & _ & _ & Hfile & _);
      [by exists enc | by apply String.eqb_neq].
Qed.

(** X13.  A single-file run that returns normally (exit status 0) has
    written its output: the output path, given or derived, holds a regular
    file and the last line printed is [[+] Saved: <output>]. *)
Theorem main_single_success_writes_output args s w :
  arg_input args = Some s -> PyStr.truthy s = true ->
  (main args w).1 = inr None ->
  exists out_path enc,
    (if truthy_opt (arg_output args) then Path_of (arg_output args)
     else default_out_path (Path s) (arg_mode args)) = inr out_path
    /\ fs (main args w).2 !! out_path = Some (File enc)
    /\ last (console (main args w).2)
       = Some (Stdout, "[+] Saved: " +:+ str out_path).
Proof.
  intros Hin Hs. destruct (main args w) as [r w'] eqn:Hrun.
  cbn [fst snd]. intros ->. revert Hrun.
  rewrite main_unfold, Hin. cbn [truthy_opt]. rewrite Hs.
  intros Hrun.
  apply bind_inr in Hrun as (in_path & w1 & Hpath & Hrun).
  unfold Path_of, lift in Hpath. injection Hpath as <- <-.
  apply bind_inr in Hrun as (found & w2 & Hfound & Hrun).
  unfold ask in Hfound. injection Hfound as <- <-.
  destruct (FS.exists_ _ (Path s)); cbn [negb] in Hrun.
  2: { revert Hrun. unfold bind, print_to, ret. done. }
  apply bind_inr in Hrun as (out_path & w3 & Hout & Hrun).
  apply bind_inr in Hrun as (success & w4 & Hfile & Hrun).
  destruct success; cbn [negb] in Hrun; [|done].
  unfold ret in Hrun. injection Hrun as <-.
  apply process_file_true_writes in Hfile as (enc & Hfile & Hconsole).
  exists out_path, enc. split_and!.
  - destruct (truthy_opt (arg_output args)); unfold lift in Hout; congruence.
  - done.
  - rewrite Hconsole. apply last_snoc.
Qed.

Lemma default_out_path_differs p mode out_path :
  default_out_path p mode = inr out_path -> out_path <> p.
Proof.
  unfold default_out_path, with_name.
  destruct (negb (PyStr.truthy (name p))); [done|].
  destruct (negb (valid_name _)); [done|].
  intros [= <-] Heq. apply (f_equal name) in Heq.
  rewrite name_with_last, <- (stem_suffix p) in Heq.
  apply (f_equal String.length) in Heq. rewrite !length_app in Heq.
  simpl in Heq. lia.
Qed.

(** X16.  [flip_opencv_image_bytes] never returns and never touches the
    world: it raises [RuntimeError] when OpenCV is missing and [NameError]
    (for [np]) when it is there. *)
Theorem flip_opencv_image_bytes_always_raises img_path out_path mode w :
  exists e,
    flip_opencv_image_bytes img_path out_path mode w = (inl e, w)
    /\ exn_cls e = (if _cv2_available then NameError else RuntimeError).
Proof.
  unfold flip_opencv_image_bytes, load_global, module_globals.
  destruct _cv2_available; by eexists.
Qed.

End Runs.

(** X17.  The save passes at most five keyword arguments: [format],
    [quality], [subsampling], [icc_profile] and [exif].  Every other entry
    of [info] (such as [dpi]) is dropped. *)
Theorem save_kwargs_only_known_keys original k v :
  save_kwargs original !! k = Some v ->
  In k ["format"; "quality"; "subsampling"; "icc_profile"; "exif"].
Proof.
  unfold save_kwargs, getattr_info, setdefault.
  destruct original as [o|]; [|by rewrite lookup_empty].
  intros Hk.
  destruct (decide (k = "format")) as [->|?]; [simpl; auto|].
  destruct (decide (k = "quality")) as [->|?]; [simpl; auto|].
  destruct (decide (k = "subsampling")) as [->|?]; [simpl; auto|].
  destruct (decide (k = "icc_profile")) as [->|?]; [simpl; auto 6|].
  destruct (decide (k = "exif")) as [->|?]; [simpl; auto 6|].
  exfalso. revert Hk.
  destruct (format o) as [f|]; [destruct (PyStr.truthy f);
    [destruct (str_in (PyStr.upper f) ["JPEG"; "JPG"])|]|];
  destruct (info o !! "icc_profile"), (info o !! "exif");
    by simplify_map_eq.
Qed.

(** X18.  A non-empty format of the original is passed on as it is, and a
    format other than JPEG or JPG gets neither [quality] nor
    [subsampling]. *)
Theorem save_kwargs_keeps_format o f :
  format o = Some f -> PyStr.truthy f = true ->
  save_kwargs (Some o) !! "format" = Some (PStr f)
  /\ (str_in (PyStr.upper f) ["JPEG"; "JPG"] = false ->
      save_kwargs (Some o) !! "quality" = None
      /\ save_kwargs (Some o) !! "subsampling" = None).
Proof.
  intros Hf Htruthy. unfold save_kwargs, getattr_info, setdefault.
  rewrite Hf, Htruthy. split.
  - destruct (str_in (PyStr.upper f) ["JPEG"; "JPG"]);
    destruct (info o !! "icc_profile"), (info o !! "exif");
      by simplify_map_eq.
  - intros ->.
    destruct (info o !! "icc_profile"), (info o !! "exif");
      by simplify_map_eq.
Qed.

Lemma split_suffix_stem nm :
  (split_suffix nm).2 <> "" -> (split_suffix nm).1 <> "".
Proof.
  unfold split_suffix. destruct (PyStr.rfind "." nm) as [i|]; [|done].
  destruct ((0 <? i)%nat && (i <? String.length nm - 1)%nat) eqn:Hi; [|done].
  intros _. apply andb_true_iff in Hi as [Hpos Hlt].
  apply Nat.ltb_lt in Hpos, Hlt.
  destruct i as [|i]; [lia|]. destruct nm as [|c nm]; [simpl in Hlt; lia|].
  done.
Qed.

(** X19.  [is_image_file] accepts only regular files whose name is a
    non-empty stem followed by a supported extension: a file called just
    [.png] is not an image file, nor is any directory. *)
Theorem is_image_file_has_stem m p :
  is_image_file m p = true ->
  FS.is_file m p = true
  /\ In (PyStr.lower (suffix p)) SUPPORTED_EXTS
  /\ stem p <> ""
  /\ name p = stem p +:+ suffix p.
Proof.
  unfold is_image_file. intros [Hfile Hext%str_in_In]%andb_true_iff.
  split_and!; try done; [|by rewrite stem_suffix].
  apply split_suffix_stem. fold (suffix p). intros Hs. rewrite Hs in Hext.
  simpl in Hext. repeat destruct Hext as [Hext|Hext]; done.
Qed.

(** ** Further theorems on runs, with their witnesses *)

(** X1.  Without [overwrite], [process_file] changes and removes nothing
    that exists: every file and directory present before the call is still
    there with the same content, whether the call succeeds or fails. *)
Theorem process_file_no_overwrite_keeps_files `{ImageLibs}
  (in_path out_path : path) (mode backend : string) (w : world) :
  fs w ⊆ fs (process_file in_path out_path mode false backend w).2.
Proof.
  apply map_subseteq_spec. intros q n Hq.
  apply (process_file_keeps_all in_path out_path mode backend w q n);
    [apply not_elem_of_nil | exact Hq].
Qed.

(** X3.  When [process_file] returns [True] with the Pillow backend, the
    input was read and decoded, the mode was accepted, and the output path
    holds exactly what the encoder produced for the flipped image under the
    keyword arguments built from the original; the last line printed is
    [[+] Saved: <output>]. *)
Theorem process_file_pillow_result `{ImageLibs}
  (in_path out_path : path) (mode : string) (overwrite : bool)
  (backend : string) (w : world) :
  String.eqb backend "opencv" = false ->
  (process_file in_path out_path mode overwrite backend w).1 = inr true ->
  exists data im flipped enc,
    FS.read_bytes (fs w) in_path = inr data
    /\ Image_open data = inr im
    /\ flip_pillow im mode = inr flipped
    /\ pil_encode flipped (str out_path) (save_kwargs (Some im)) = inr (enc, None)
    /\ fs (process_file in_path out_path mode overwrite backend w).2 !! out_path
       = Some (File enc)
    /\ console (process_file in_path out_path mode overwrite backend w).2
       = console w ++ [(Stdout, "[+] Saved: " +:+ str out_path)].
Proof.
  intros Hbackend.
  destruct (process_file in_path out_path mode overwrite backend w)
    as [r w'] eqn:Hrun.
  cbn [fst snd]. intros ->. by eapply process_file_pillow_sound.
Qed.

Lemma process_file_pillow_result_witness :
  let r := @process_file (toy_libs false) (Path "in/b.PNG") (Path "out/b.PNG")
             "horizontal" false "pillow" demo_world in
  exists data im flipped enc,
    FS.read_bytes (fs demo_world) (Path "in/b.PNG") = inr data
    /\ @Image_open (toy_libs false) data = inr im
    /\ flip_pillow im "horizontal" = inr flipped
    /\ @pil_encode (toy_libs false) flipped (str (Path "out/b.PNG"))
         (save_kwargs (Some im)) = inr (enc, None)
    /\ fs r.2 !! Path "out/b.PNG" = Some (File enc)
    /\ console r.2
       = console demo_world ++ [(Stdout, "[+] Saved: " +:+ str (Path "out/b.PNG"))].
Proof.
  apply (@process_file_pillow_result (toy_libs false)).
  - reflexivity.
  - vm_compute. reflexivity.
Defined.

(** X4.  When [process_file] returns [True] with the OpenCV backend, OpenCV
    is available, the mode is exactly one of the three words (no case
    folding on this path), and the output path holds the encoding, under the
    extension of the output path, of the decoded array flipped with code 1,
    0 or -1. *)
Theorem process_file_opencv_result `{ImageLibs}
  (in_path out_path : path) (mode : string) (overwrite : bool) (w : world) :
  (process_file in_path out_path mode overwrite "opencv" w).1 = inr true ->
  _cv2_available = true
  /\ exists data a code enc,
       FS.read_bytes (fs w) in_path = inr data
       /\ cv2_imdecode data = inr (Some a)
       /\ In (mode, code) [("horizontal", 1%Z); ("vertical", 0%Z); ("both", (-1)%Z)]
       /\ cv2_imencode (suffix out_path) (CV2.flip a code) = inr (true, enc)
       /\ fs (process_file in_path out_path mode overwrite "opencv" w).2 !! out_path
          = Some (File enc).
Proof.
  destruct (process_file in_path out_path mode overwrite "opencv" w)
    as [r w'] eqn:Hrun.
  cbn [fst snd]. intros ->. by eapply process_file_opencv_sound.
Qed.

Lemma process_file_opencv_result_witness :
  let r := @process_file (toy_libs true) (Path "in/b.PNG") (Path "out/b.PNG")
             "both" false "opencv" demo_world in
  @_cv2_available (toy_libs true) = true
  /\ exists data a code enc,
       FS.read_bytes (fs demo_world) (Path "in/b.PNG") = inr data
       /\ @cv2_imdecode (toy_libs true) data = inr (Some a)
       /\ In ("both", code) [("horizontal", 1%Z); ("vertical", 0%Z); ("both", (-1)%Z)]
       /\ @cv2_imencode (toy_libs true) (suffix (Path "out/b.PNG")) (CV2.flip a code)
          = inr (true, enc)
       /\ fs r.2 !! Path "out/b.PNG" = Some (File enc).
Proof.
  apply (@process_file_opencv_result (toy_libs true)).
  vm_compute. reflexivity.
Defined.






(** X8.  Without [overwrite], a batch run changes and removes nothing that
    exists, whatever the folders are and however the files fare: it only
    adds directories and new output files. *)
Theorem batch_no_overwrite_keeps_files `{ImageLibs}
  (in_folder out_folder : path) (mode backend : string) (w : world) :
  fs w ⊆ fs (batch_process_folder in_folder out_folder mode false backend w).2.
Proof.
  apply map_subseteq_spec. intros q n Hq.
  apply (batch_process_folder_keeps in_folder out_folder mode backend w q n);
    [apply not_elem_of_nil | exact Hq].
Qed.

(** X9.  Without [--overwrite], a whole run of the program, single file or
    batch, with any arguments, changes and removes nothing that exists. *)
Theorem main_no_overwrite_keeps_files `{ImageLibs} (args : Args) (w : world) :
  arg_overwrite args = false ->
  fs w ⊆ fs (main args w).2.
Proof.
  intros Hov. apply map_subseteq_spec. intros q n Hq.
  apply (main_keeps args Hov w q n); [apply not_elem_of_nil | exact Hq].
Qed.

Lemma main_no_overwrite_keeps_files_witness :
  fs demo_world
  ⊆ fs (@main (toy_libs false)
          (mkArgs None (Some "in") None (Some "out") "both" false "pillow")
          demo_world).2.
Proof. apply (@main_no_overwrite_keeps_files (toy_libs false)). reflexivity. Defined.

Lemma main_missing_input_exits_2_witness :
  let args := mkArgs (Some "missing.png") None None None "horizontal" false "pillow" in
  @main (toy_libs false) args demo_world
  = (inr (Some 2%Z),
     mkWorld (fs demo_world)
       (console (@after_fallback (toy_libs false) args demo_world) ++
          [(Stderr, "[!] Input file does not exist: " +:+ str (Path "missing.png"))])).
Proof.
  intros args.
  apply (@main_missing_input_exits_2 (toy_libs false) args "missing.png");
    [reflexivity | reflexivity | vm_compute; reflexivity].
Defined.

Lemma main_missing_output_folder_exits_2_witness :
  let args := mkArgs None (Some "in") None None "horizontal" false "pillow" in
  @main (toy_libs false) args demo_world
  = (inr (Some 2%Z),
     mkWorld (fs demo_world)
       (console (@after_fallback (toy_libs false) args demo_world) ++
          [(Stderr, "[!] --output-folder is required when using --input-folder")])).
Proof.
  intros args.
  apply (@main_missing_output_folder_exits_2 (toy_libs false) args "in");
    reflexivity.
Defined.


Lemma main_single_success_writes_output_witness :
  let args := mkArgs (Some "photo.jpg") None None None "vertical" false "pillow" in
  exists out_path enc,
    (if truthy_opt (arg_output args) then Path_of (arg_output args)
     else default_out_path (Path "photo.jpg") (arg_mode args)) = inr out_path
    /\ fs (@main (toy_libs false) args demo_world).2 !! out_path = Some (File enc)
    /\ last (console (@main (toy_libs false) args demo_world).2)
       = Some (Stdout, "[+] Saved: " +:+ str out_path).
Proof.
  intros args.
  apply (@main_single_success_writes_output (toy_libs false) args "photo.jpg");
    [reflexivity | reflexivity | vm_compute; reflexivity].
Defined.

Lemma save_kwargs_only_known_keys_witness :
  In "exif" ["format"; "quality"; "subsampling"; "icc_profile"; "exif"].
Proof.
  apply (save_kwargs_only_known_keys (Some sample_image) "exif"
           (PBytes [Byte.x45; Byte.x78])).
  vm_compute. reflexivity.
Defined.

Lemma save_kwargs_keeps_format_witness :
  let png := mkImage [[[7%N]]] (Some "PNG") ∅ in
  save_kwargs (Some png) !! "format" = Some (PStr "PNG")
  /\ save_kwargs (Some png) !! "quality" = None
  /\ save_kwargs (Some png) !! "subsampling" = None.
Proof.
  intros png.
  destruct (save_kwargs_keeps_format png "PNG") as [Hformat Hplain];
    [reflexivity | reflexivity |].
  split; [exact Hformat | apply Hplain; reflexivity].
Defined.

Lemma is_image_file_has_stem_witness :
  FS.is_file demo_fs (Path "in/b.PNG") = true
  /\ In (PyStr.lower (suffix (Path "in/b.PNG"))) SUPPORTED_EXTS
  /\ stem (Path "in/b.PNG") <> ""
  /\ name (Path "in/b.PNG") = stem (Path "in/b.PNG") +:+ suffix (Path "in/b.PNG").
Proof. apply is_image_file_has_stem. vm_compute. reflexivity. Defined.

(** X20.  [process_file] and [batch_process_folder] print to standard
    output only: every report, also of a failure, goes there and nothing
    goes to the error stream. *)
Theorem reports_go_to_stdout `{ImageLibs} (in_path out_path : path)
  (in_folder out_folder : path) (mode : string) (overwrite : bool)
  (backend : string) (w : world) :
  (exists evs,
     console (process_file in_path out_path mode overwrite backend w).2
     = console w ++ evs /\ Forall on_stdout evs)
  /\ exists evs,
       console (batch_process_folder in_folder out_folder mode overwrite backend w).2
       = console w ++ evs /\ Forall on_stdout evs.
Proof.
  assert (forall line, on_stdout (Stdout, line)) as Hstdout by done.
  split.
  - by apply (process_file_emits on_stdout).
  - by apply (batch_process_folder_emits on_stdout).
Qed.

(** The name of an image file without a slash is a valid path component. *)
Lemma image_file_name_valid (m : gmap path node) (p : path) :
  is_image_file m p = true ->
  PyStr.contains sep (name p) = false ->
  valid_name (name p) = true.
Proof.
  unfold is_image_file. intros [_ Hext%str_in_In]%andb_true_iff Hsep.
  assert (suffix p <> "") as Hsuffix.
  { intros Hs. rewrite Hs in Hext. simpl in Hext.
    repeat destruct Hext as [Hext|Hext]; done. }
  pose proof (split_suffix_stem (name p) Hsuffix) as Hstem. fold (stem p) in Hstem.
  assert (2 <= String.length (name p)) as Hlen.
  { rewrite <- (stem_suffix p), length_app.
    destruct (stem p); [done|]. destruct (suffix p); [done | simpl; lia]. }
  unfold valid_name. rewrite Hsep, truthy_length by lia.
  by rewrite not_dot_length.
Qed.

(** X21.  For an output folder given as a string and a selected file whose
    name holds no slash, the batch output path [out_folder / p.name] is the
    folder followed by that name: the output lies directly in the output
    folder and is called like the input. *)
Theorem batch_output_path_in_folder (m : gmap path node) (s : string) (p : path) :
  is_image_file m p = true ->
  PyStr.contains sep (name p) = false ->
  joinpath (Path s) (name p) = mkPath (root (Path s)) (parts (Path s) ++ [name p])
  /\ name (joinpath (Path s) (name p)) = name p
  /\ parent (joinpath (Path s) (name p)) = Path s.
Proof.
  intros Himg Hsep.
  pose proof (image_file_name_valid m p Himg Hsep) as Hvalid.
  rewrite (joinpath_parsed (Path s) (name p) (Path_parsed s) Hvalid).
  split; [done|]. split; [apply name_with_last|].
  rewrite parent_with_last. by destruct (Path s).
Qed.

Lemma batch_output_path_in_folder_witness :
  joinpath (Path "out/dir") (name (Path "in/b.PNG"))
  = mkPath (root (Path "out/dir")) (parts (Path "out/dir") ++ [name (Path "in/b.PNG")])
  /\ name (joinpath (Path "out/dir") (name (Path "in/b.PNG"))) = name (Path "in/b.PNG")
  /\ parent (joinpath (Path "out/dir") (name (Path "in/b.PNG"))) = Path "out/dir".
Proof.
  apply (batch_output_path_in_folder demo_fs "out/dir" (Path "in/b.PNG"));
    vm_compute; reflexivity.
Defined.

(** * Standard output that can refuse a line *)

(** ** Following the run on a console that accepts everything *)

Section Follows.

Context `{Console} {A B : Type}.




End Follows.





Section StrictRuns.

Context `{ImageLibs} `{Console}.

Implicit Types (w : world) (p : path).


Lemma grows_batch in_folder out_folder mode overwrite backend :
  grows (batch_process_folder in_folder out_folder mode overwrite backend).
Proof. by apply batch_process_folder_emits. Qed.







End StrictRuns.

(** ** What can leave [process_file] *)

Section StrictOutcomes.

Context `{ImageLibs} `{Console}.

Implicit Types (w : world) (p : path).








End StrictOutcomes.






(** The proviso of the amended C6 is met by the sample folder: every line of
    its run is ASCII, and the run returns after three reports. *)
Example batch_on_ascii_console :
  let r := @Strict.batch_process_folder (toy_libs false) ascii_console
             (Path "in") (Path "out") "horizontal" false "pillow" demo_world in
  r.1 = inr tt
  /\ length (console r.2) = 3%nat
  /\ forallb (fun ev => @stdout_encodes ascii_console ev.2) (console r.2) = true.
Proof. vm_compute. done. Qed.

(** Without the proviso the loop does stop: in a folder whose second image
    has a name that an ASCII standard output cannot encode, the first image
    is reported, the [UnicodeEncodeError] of the second report leaves the
    batch, and the third image is never processed. *)
Example batch_stops_at_unencodable_name :
  let r := @Strict.batch_process_folder (toy_libs false) ascii_console
             (mkPath "" ["in"]) (mkPath "" ["out"]) "horizontal" false "pillow"
             (mkWorld odd_fs []) in
  map name (image_files odd_fs (mkPath "" ["in"])) = ["a.gif"; odd_name; "z.gif"]
  /\ r.1 = inl (@encode_error ascii_console
                  ("[!] Failed to process " +:+ str (mkPath "" ["in"; odd_name])
                   +:+ ": cannot identify image file"))
  /\ console r.2 = [(Stdout, "[+] Saved: out/a.gif")]
  /\ FS.node_at (fs r.2) (mkPath "" ["out"; "z.gif"]) = None.
Proof. intros r. split_and!; vm_compute; reflexivity. Qed.

Section StrictMain.

Context `{ImageLibs} `{Console}.


End StrictMain.


(** X15.  The default output path is never the input path itself: it lies
    in the directory of the input and its name is the input's name with
    [_flipped_] and the mode inserted before the extension. *)
Theorem default_out_path_never_input (p : path) (mode : string) (out_path : path) :
  default_out_path p mode = inr out_path ->
  out_path <> p
  /\ parent out_path = parent p
  /\ name out_path = (stem p +:+ "_flipped_" +:+ mode) +:+ suffix p
  /\ String.length (name out_path)
     = (String.length (name p) + 9 + String.length mode)%nat.
Proof.
  intros Hdef. split; [by apply default_out_path_differs in Hdef|].
  revert Hdef. unfold default_out_path, with_name.
  destruct (negb (PyStr.truthy (name p))); [done|].
  destruct (negb (valid_name _)); [done|].
  intros [= <-]. rewrite name_with_last, parent_with_last.
  split; [done|]. split; [done|].
  pose proof (f_equal String.length (stem_suffix p)) as Hlen.
  rewrite length_app in Hlen. rewrite !length_app. simpl. lia.
Qed.

Lemma default_out_path_never_input_witness :
  Path "pics/photo_flipped_both.jpg" <> Path "pics/photo.jpg"
  /\ parent (Path "pics/photo_flipped_both.jpg") = parent (Path "pics/photo.jpg")
  /\ name (Path "pics/photo_flipped_both.jpg")
     = (stem (Path "pics/photo.jpg") +:+ "_flipped_" +:+ "both")
       +:+ suffix (Path "pics/photo.jpg")
  /\ String.length (name (Path "pics/photo_flipped_both.jpg"))
     = (String.length (name (Path "pics/photo.jpg")) + 9 + String.length "both")%nat.
Proof.
  apply (default_out_path_never_input (Path "pics/photo.jpg") "both").
  vm_compute. reflexivity.
Defined.
